(** * CustomIconPackSetting (src/settings/ui/customIconPack.ts)

    A shallow embedding of the settings panel that manages custom icon
    packs: the name normalisation, the drag-and-drop highlight state
    machine over a small DOM model, and the click / change / drop handlers
    as programs over the external icon-pack manager. *)

From Stdlib Require Import Ascii String DecimalString.
From stdpp Require Import gmap strings list fin_maps.

Open Scope string_scope.

(** ** Unicode data

    The character data that [String.prototype.toLowerCase] and the
    regular-expression class [\s] consult, as of Unicode 14.0.  Code
    points are numbers below 1114112. *)
Module Unicode.

Definition inRun (c : N) (run : N * N * N) : bool :=
  let '(lo, hi, step) := run in
  ((lo <=? c) && (c <=? hi) && ((c - lo) mod step =? 0))%N.

Definition inRuns (runs : list (N * N * N)) (c : N) : bool :=
  List.existsb (inRun c) runs.

(** The simple lower-case mappings of UnicodeData.txt: in a run
    [(lo, hi, step, target)] the code points [lo], [lo + step], ... up to [hi]
    map to [target], [target + step], ... *)
Definition lowerCaseRuns : list (N * N * N * N) :=
  [(65, 90, 1, 97); (192, 214, 1, 224); (216, 222, 1, 248); (256, 302, 2, 257);
   (304, 304, 1, 105); (306, 310, 2, 307); (313, 327, 2, 314); (330, 374, 2, 331);
   (376, 376, 1, 255); (377, 381, 2, 378); (385, 385, 1, 595); (386, 388, 2, 387);
   (390, 390, 1, 596); (391, 391, 1, 392); (393, 394, 1, 598); (395, 395, 1, 396);
   (398, 398, 1, 477); (399, 399, 1, 601); (400, 400, 1, 603); (401, 401, 1, 402);
   (403, 403, 1, 608); (404, 404, 1, 611); (406, 406, 1, 617); (407, 407, 1, 616);
   (408, 408, 1, 409); (412, 412, 1, 623); (413, 413, 1, 626); (415, 415, 1, 629);
   (416, 420, 2, 417); (422, 422, 1, 640); (423, 423, 1, 424); (425, 425, 1, 643);
   (428, 428, 1, 429); (430, 430, 1, 648); (431, 431, 1, 432); (433, 434, 1, 650);
   (435, 437, 2, 436); (439, 439, 1, 658); (440, 440, 1, 441); (444, 444, 1, 445);
   (452, 452, 1, 454); (453, 453, 1, 454); (455, 455, 1, 457); (456, 456, 1, 457);
   (458, 458, 1, 460); (459, 475, 2, 460); (478, 494, 2, 479); (497, 497, 1, 499);
   (498, 500, 2, 499); (502, 502, 1, 405); (503, 503, 1, 447); (504, 542, 2, 505);
   (544, 544, 1, 414); (546, 562, 2, 547); (570, 570, 1, 11365); (571, 571, 1, 572);
   (573, 573, 1, 410); (574, 574, 1, 11366); (577, 577, 1, 578); (579, 579, 1, 384);
   (580, 580, 1, 649); (581, 581, 1, 652); (582, 590, 2, 583); (880, 882, 2, 881);
   (886, 886, 1, 887); (895, 895, 1, 1011); (902, 902, 1, 940); (904, 906, 1, 941);
   (908, 908, 1, 972); (910, 911, 1, 973); (913, 929, 1, 945); (931, 939, 1, 963);
   (975, 975, 1, 983); (984, 1006, 2, 985); (1012, 1012, 1, 952);
   (1015, 1015, 1, 1016); (1017, 1017, 1, 1010); (1018, 1018, 1, 1019);
   (1021, 1023, 1, 891); (1024, 1039, 1, 1104); (1040, 1071, 1, 1072);
   (1120, 1152, 2, 1121); (1162, 1214, 2, 1163); (1216, 1216, 1, 1231);
   (1217, 1229, 2, 1218); (1232, 1326, 2, 1233); (1329, 1366, 1, 1377);
   (4256, 4293, 1, 11520); (4295, 4295, 1, 11559); (4301, 4301, 1, 11565);
   (5024, 5103, 1, 43888); (5104, 5109, 1, 5112); (7312, 7354, 1, 4304);
   (7357, 7359, 1, 4349); (7680, 7828, 2, 7681); (7838, 7838, 1, 223);
   (7840, 7934, 2, 7841); (7944, 7951, 1, 7936); (7960, 7965, 1, 7952);
   (7976, 7983, 1, 7968); (7992, 7999, 1, 7984); (8008, 8013, 1, 8000);
   (8025, 8031, 2, 8017); (8040, 8047, 1, 8032); (8072, 8079, 1, 8064);
   (8088, 8095, 1, 8080); (8104, 8111, 1, 8096); (8120, 8121, 1, 8112);
   (8122, 8123, 1, 8048); (8124, 8124, 1, 8115); (8136, 8139, 1, 8050);
   (8140, 8140, 1, 8131); (8152, 8153, 1, 8144); (8154, 8155, 1, 8054);
   (8168, 8169, 1, 8160); (8170, 8171, 1, 8058); (8172, 8172, 1, 8165);
   (8184, 8185, 1, 8056); (8186, 8187, 1, 8060); (8188, 8188, 1, 8179);
   (8486, 8486, 1, 969); (8490, 8490, 1, 107); (8491, 8491, 1, 229);
   (8498, 8498, 1, 8526); (8544, 8559, 1, 8560); (8579, 8579, 1, 8580);
   (9398, 9423, 1, 9424); (11264, 11311, 1, 11312); (11360, 11360, 1, 11361);
   (11362, 11362, 1, 619); (11363, 11363, 1, 7549); (11364, 11364, 1, 637);
   (11367, 11371, 2, 11368); (11373, 11373, 1, 593); (11374, 11374, 1, 625);
   (11375, 11375, 1, 592); (11376, 11376, 1, 594); (11378, 11378, 1, 11379);
   (11381, 11381, 1, 11382); (11390, 11391, 1, 575); (11392, 11490, 2, 11393);
   (11499, 11501, 2, 11500); (11506, 11506, 1, 11507); (42560, 42604, 2, 42561);
   (42624, 42650, 2, 42625); (42786, 42798, 2, 42787); (42802, 42862, 2, 42803);
   (42873, 42875, 2, 42874); (42877, 42877, 1, 7545); (42878, 42886, 2, 42879);
   (42891, 42891, 1, 42892); (42893, 42893, 1, 613); (42896, 42898, 2, 42897);
   (42902, 42920, 2, 42903); (42922, 42922, 1, 614); (42923, 42923, 1, 604);
   (42924, 42924, 1, 609); (42925, 42925, 1, 620); (42926, 42926, 1, 618);
   (42928, 42928, 1, 670); (42929, 42929, 1, 647); (42930, 42930, 1, 669);
   (42931, 42931, 1, 43859); (42932, 42946, 2, 42933); (42948, 42948, 1, 42900);
   (42949, 42949, 1, 642); (42950, 42950, 1, 7566); (42951, 42953, 2, 42952);
   (42960, 42960, 1, 42961); (42966, 42968, 2, 42967); (42997, 42997, 1, 42998);
   (65313, 65338, 1, 65345); (66560, 66599, 1, 66600); (66736, 66771, 1, 66776);
   (66928, 66938, 1, 66967); (66940, 66954, 1, 66979); (66956, 66962, 1, 66995);
   (66964, 66965, 1, 67003); (68736, 68786, 1, 68800); (71840, 71871, 1, 71872);
   (93760, 93791, 1, 93792); (125184, 125217, 1, 125218)]%N.

(** General category Lu (upper-case letter); runs are [(lo, hi, step)]. *)
Definition upperCaseLetterRuns : list (N * N * N) :=
  [(65, 90, 1); (192, 214, 1); (216, 222, 1); (256, 310, 2); (313, 327, 2);
   (330, 376, 2); (377, 381, 2); (385, 386, 1); (388, 390, 2); (391, 393, 2);
   (394, 395, 1); (398, 401, 1); (403, 404, 1); (406, 408, 1); (412, 413, 1);
   (415, 416, 1); (418, 422, 2); (423, 425, 2); (428, 430, 2); (431, 433, 2);
   (434, 435, 1); (437, 439, 2); (440, 440, 1); (444, 444, 1); (452, 452, 1);
   (455, 455, 1); (458, 458, 1); (461, 475, 2); (478, 494, 2); (497, 497, 1);
   (500, 502, 2); (503, 504, 1); (506, 562, 2); (570, 571, 1); (573, 574, 1);
   (577, 579, 2); (580, 582, 1); (584, 590, 2); (880, 882, 2); (886, 886, 1);
   (895, 895, 1); (902, 904, 2); (905, 906, 1); (908, 910, 2); (911, 913, 2);
   (914, 929, 1); (931, 939, 1); (975, 975, 1); (978, 980, 1); (984, 1006, 2);
   (1012, 1012, 1); (1015, 1017, 2); (1018, 1018, 1); (1021, 1071, 1);
   (1120, 1152, 2); (1162, 1216, 2); (1217, 1229, 2); (1232, 1326, 2);
   (1329, 1366, 1); (4256, 4293, 1); (4295, 4295, 1); (4301, 4301, 1);
   (5024, 5109, 1); (7312, 7354, 1); (7357, 7359, 1); (7680, 7828, 2);
   (7838, 7934, 2); (7944, 7951, 1); (7960, 7965, 1); (7976, 7983, 1);
   (7992, 7999, 1); (8008, 8013, 1); (8025, 8031, 2); (8040, 8047, 1);
   (8120, 8123, 1); (8136, 8139, 1); (8152, 8155, 1); (8168, 8172, 1);
   (8184, 8187, 1); (8450, 8450, 1); (8455, 8455, 1); (8459, 8461, 1);
   (8464, 8466, 1); (8469, 8469, 1); (8473, 8477, 1); (8484, 8490, 2);
   (8491, 8493, 1); (8496, 8499, 1); (8510, 8511, 1); (8517, 8517, 1);
   (8579, 8579, 1); (11264, 11311, 1); (11360, 11362, 2); (11363, 11364, 1);
   (11367, 11373, 2); (11374, 11376, 1); (11378, 11378, 1); (11381, 11381, 1);
   (11390, 11392, 1); (11394, 11490, 2); (11499, 11501, 2); (11506, 11506, 1);
   (42560, 42604, 2); (42624, 42650, 2); (42786, 42798, 2); (42802, 42862, 2);
   (42873, 42877, 2); (42878, 42886, 2); (42891, 42893, 2); (42896, 42898, 2);
   (42902, 42922, 2); (42923, 42926, 1); (42928, 42932, 1); (42934, 42948, 2);
   (42949, 42951, 1); (42953, 42953, 1); (42960, 42960, 1); (42966, 42968, 2);
   (42997, 42997, 1); (65313, 65338, 1); (66560, 66599, 1); (66736, 66771, 1);
   (66928, 66938, 1); (66940, 66954, 1); (66956, 66962, 1); (66964, 66965, 1);
   (68736, 68786, 1); (71840, 71871, 1); (93760, 93791, 1); (119808, 119833, 1);
   (119860, 119885, 1); (119912, 119937, 1); (119964, 119966, 2);
   (119967, 119967, 1); (119970, 119970, 1); (119973, 119974, 1);
   (119977, 119980, 1); (119982, 119989, 1); (120016, 120041, 1);
   (120068, 120069, 1); (120071, 120074, 1); (120077, 120084, 1);
   (120086, 120092, 1); (120120, 120121, 1); (120123, 120126, 1);
   (120128, 120132, 1); (120134, 120134, 1); (120138, 120144, 1);
   (120172, 120197, 1); (120224, 120249, 1); (120276, 120301, 1);
   (120328, 120353, 1); (120380, 120405, 1); (120432, 120457, 1);
   (120488, 120512, 1); (120546, 120570, 1); (120604, 120628, 1);
   (120662, 120686, 1); (120720, 120744, 1); (120778, 120778, 1);
   (125184, 125217, 1)]%N.

(** The derived property Cased. *)
Definition casedRuns : list (N * N * N) :=
  [(65, 90, 1); (97, 122, 1); (170, 170, 1); (181, 181, 1); (186, 186, 1);
   (192, 214, 1); (216, 246, 1); (248, 442, 1); (444, 447, 1); (452, 659, 1);
   (661, 696, 1); (704, 705, 1); (736, 740, 1); (837, 837, 1); (880, 883, 1);
   (886, 887, 1); (890, 893, 1); (895, 895, 1); (902, 904, 2); (905, 906, 1);
   (908, 910, 2); (911, 929, 1); (931, 1013, 1); (1015, 1153, 1); (1162, 1327, 1);
   (1329, 1366, 1); (1376, 1416, 1); (4256, 4293, 1); (4295, 4295, 1);
   (4301, 4301, 1); (4304, 4346, 1); (4349, 4351, 1); (5024, 5109, 1);
   (5112, 5117, 1); (7296, 7304, 1); (7312, 7354, 1); (7357, 7359, 1);
   (7424, 7615, 1); (7680, 7957, 1); (7960, 7965, 1); (7968, 8005, 1);
   (8008, 8013, 1); (8016, 8023, 1); (8025, 8031, 2); (8032, 8061, 1);
   (8064, 8116, 1); (8118, 8124, 1); (8126, 8126, 1); (8130, 8132, 1);
   (8134, 8140, 1); (8144, 8147, 1); (8150, 8155, 1); (8160, 8172, 1);
   (8178, 8180, 1); (8182, 8188, 1); (8305, 8305, 1); (8319, 8319, 1);
   (8336, 8348, 1); (8450, 8450, 1); (8455, 8455, 1); (8458, 8467, 1);
   (8469, 8469, 1); (8473, 8477, 1); (8484, 8490, 2); (8491, 8493, 1);
   (8495, 8500, 1); (8505, 8505, 1); (8508, 8511, 1); (8517, 8521, 1);
   (8526, 8526, 1); (8544, 8575, 1); (8579, 8580, 1); (9398, 9449, 1);
   (11264, 11492, 1); (11499, 11502, 1); (11506, 11507, 1); (11520, 11557, 1);
   (11559, 11559, 1); (11565, 11565, 1); (42560, 42605, 1); (42624, 42653, 1);
   (42786, 42887, 1); (42891, 42894, 1); (42896, 42954, 1); (42960, 42961, 1);
   (42963, 42965, 2); (42966, 42969, 1); (42997, 42998, 1); (43000, 43002, 1);
   (43824, 43866, 1); (43868, 43880, 1); (43888, 43967, 1); (64256, 64262, 1);
   (64275, 64279, 1); (65313, 65338, 1); (65345, 65370, 1); (66560, 66639, 1);
   (66736, 66771, 1); (66776, 66811, 1); (66928, 66938, 1); (66940, 66954, 1);
   (66956, 66962, 1); (66964, 66965, 1); (66967, 66977, 1); (66979, 66993, 1);
   (66995, 67001, 1); (67003, 67004, 1); (67456, 67456, 1); (67459, 67461, 1);
   (67463, 67504, 1); (67506, 67514, 1); (68736, 68786, 1); (68800, 68850, 1);
   (71840, 71903, 1); (93760, 93823, 1); (119808, 119892, 1); (119894, 119964, 1);
   (119966, 119967, 1); (119970, 119970, 1); (119973, 119974, 1);
   (119977, 119980, 1); (119982, 119993, 1); (119995, 119997, 2);
   (119998, 120003, 1); (120005, 120069, 1); (120071, 120074, 1);
   (120077, 120084, 1); (120086, 120092, 1); (120094, 120121, 1);
   (120123, 120126, 1); (120128, 120132, 1); (120134, 120134, 1);
   (120138, 120144, 1); (120146, 120485, 1); (120488, 120512, 1);
   (120514, 120538, 1); (120540, 120570, 1); (120572, 120596, 1);
   (120598, 120628, 1); (120630, 120654, 1); (120656, 120686, 1);
   (120688, 120712, 1); (120714, 120744, 1); (120746, 120770, 1);
   (120772, 120779, 1); (122624, 122633, 1); (122635, 122654, 1);
   (125184, 125251, 1); (127280, 127305, 1); (127312, 127337, 1);
   (127344, 127369, 1)]%N.

(** The derived property Case_Ignorable. *)
Definition caseIgnorableRuns : list (N * N * N) :=
  [(39, 39, 1); (46, 46, 1); (58, 58, 1); (94, 96, 2); (168, 168, 1); (173, 175, 2);
   (180, 180, 1); (183, 184, 1); (688, 879, 1); (884, 885, 1); (890, 890, 1);
   (900, 901, 1); (903, 903, 1); (1155, 1161, 1); (1369, 1369, 1); (1375, 1375, 1);
   (1425, 1469, 1); (1471, 1473, 2); (1474, 1476, 2); (1477, 1479, 2);
   (1524, 1524, 1); (1536, 1541, 1); (1552, 1562, 1); (1564, 1564, 1);
   (1600, 1600, 1); (1611, 1631, 1); (1648, 1648, 1); (1750, 1757, 1);
   (1759, 1768, 1); (1770, 1773, 1); (1807, 1809, 2); (1840, 1866, 1);
   (1958, 1968, 1); (2027, 2037, 1); (2042, 2042, 1); (2045, 2045, 1);
   (2070, 2093, 1); (2137, 2139, 1); (2184, 2184, 1); (2192, 2193, 1);
   (2200, 2207, 1); (2249, 2306, 1); (2362, 2364, 2); (2369, 2376, 1);
   (2381, 2381, 1); (2385, 2391, 1); (2402, 2403, 1); (2417, 2417, 1);
   (2433, 2433, 1); (2492, 2492, 1); (2497, 2500, 1); (2509, 2509, 1);
   (2530, 2531, 1); (2558, 2558, 1); (2561, 2562, 1); (2620, 2620, 1);
   (2625, 2626, 1); (2631, 2632, 1); (2635, 2637, 1); (2641, 2641, 1);
   (2672, 2673, 1); (2677, 2677, 1); (2689, 2690, 1); (2748, 2748, 1);
   (2753, 2757, 1); (2759, 2760, 1); (2765, 2765, 1); (2786, 2787, 1);
   (2810, 2815, 1); (2817, 2817, 1); (2876, 2876, 1); (2879, 2881, 2);
   (2882, 2884, 1); (2893, 2893, 1); (2901, 2902, 1); (2914, 2915, 1);
   (2946, 2946, 1); (3008, 3008, 1); (3021, 3021, 1); (3072, 3072, 1);
   (3076, 3076, 1); (3132, 3134, 2); (3135, 3136, 1); (3142, 3144, 1);
   (3146, 3149, 1); (3157, 3158, 1); (3170, 3171, 1); (3201, 3201, 1);
   (3260, 3260, 1); (3263, 3263, 1); (3270, 3270, 1); (3276, 3277, 1);
   (3298, 3299, 1); (3328, 3329, 1); (3387, 3388, 1); (3393, 3396, 1);
   (3405, 3405, 1); (3426, 3427, 1); (3457, 3457, 1); (3530, 3530, 1);
   (3538, 3540, 1); (3542, 3542, 1); (3633, 3633, 1); (3636, 3642, 1);
   (3654, 3662, 1); (3761, 3761, 1); (3764, 3772, 1); (3782, 3784, 2);
   (3785, 3789, 1); (3864, 3865, 1); (3893, 3897, 2); (3953, 3966, 1);
   (3968, 3972, 1); (3974, 3975, 1); (3981, 3991, 1); (3993, 4028, 1);
   (4038, 4038, 1); (4141, 4144, 1); (4146, 4151, 1); (4153, 4154, 1);
   (4157, 4158, 1); (4184, 4185, 1); (4190, 4192, 1); (4209, 4212, 1);
   (4226, 4226, 1); (4229, 4230, 1); (4237, 4237, 1); (4253, 4253, 1);
   (4348, 4348, 1); (4957, 4959, 1); (5906, 5908, 1); (5938, 5939, 1);
   (5970, 5971, 1); (6002, 6003, 1); (6068, 6069, 1); (6071, 6077, 1);
   (6086, 6086, 1); (6089, 6099, 1); (6103, 6103, 1); (6109, 6109, 1);
   (6155, 6159, 1); (6211, 6211, 1); (6277, 6278, 1); (6313, 6313, 1);
   (6432, 6434, 1); (6439, 6440, 1); (6450, 6450, 1); (6457, 6459, 1);
   (6679, 6680, 1); (6683, 6683, 1); (6742, 6744, 2); (6745, 6750, 1);
   (6752, 6754, 2); (6757, 6764, 1); (6771, 6780, 1); (6783, 6783, 1);
   (6823, 6823, 1); (6832, 6862, 1); (6912, 6915, 1); (6964, 6966, 2);
   (6967, 6970, 1); (6972, 6972, 1); (6978, 6978, 1); (7019, 7027, 1);
   (7040, 7041, 1); (7074, 7077, 1); (7080, 7081, 1); (7083, 7085, 1);
   (7142, 7144, 2); (7145, 7145, 1); (7149, 7151, 2); (7152, 7153, 1);
   (7212, 7219, 1); (7222, 7223, 1); (7288, 7293, 1); (7376, 7378, 1);
   (7380, 7392, 1); (7394, 7400, 1); (7405, 7405, 1); (7412, 7412, 1);
   (7416, 7417, 1); (7468, 7530, 1); (7544, 7544, 1); (7579, 7679, 1);
   (8125, 8127, 2); (8128, 8129, 1); (8141, 8143, 1); (8157, 8159, 1);
   (8173, 8175, 1); (8189, 8190, 1); (8203, 8207, 1); (8216, 8217, 1);
   (8228, 8228, 1); (8231, 8231, 1); (8234, 8238, 1); (8288, 8292, 1);
   (8294, 8303, 1); (8305, 8305, 1); (8319, 8319, 1); (8336, 8348, 1);
   (8400, 8432, 1); (11388, 11389, 1); (11503, 11505, 1); (11631, 11631, 1);
   (11647, 11647, 1); (11744, 11775, 1); (11823, 11823, 1); (12293, 12293, 1);
   (12330, 12333, 1); (12337, 12341, 1); (12347, 12347, 1); (12441, 12446, 1);
   (12540, 12542, 1); (40981, 40981, 1); (42232, 42237, 1); (42508, 42508, 1);
   (42607, 42610, 1); (42612, 42621, 1); (42623, 42623, 1); (42652, 42655, 1);
   (42736, 42737, 1); (42752, 42785, 1); (42864, 42864, 1); (42888, 42890, 1);
   (42994, 42996, 1); (43000, 43001, 1); (43010, 43010, 1); (43014, 43014, 1);
   (43019, 43019, 1); (43045, 43046, 1); (43052, 43052, 1); (43204, 43205, 1);
   (43232, 43249, 1); (43263, 43263, 1); (43302, 43309, 1); (43335, 43345, 1);
   (43392, 43394, 1); (43443, 43443, 1); (43446, 43449, 1); (43452, 43453, 1);
   (43471, 43471, 1); (43493, 43494, 1); (43561, 43566, 1); (43569, 43570, 1);
   (43573, 43574, 1); (43587, 43587, 1); (43596, 43596, 1); (43632, 43632, 1);
   (43644, 43644, 1); (43696, 43698, 2); (43699, 43700, 1); (43703, 43704, 1);
   (43710, 43711, 1); (43713, 43713, 1); (43741, 43741, 1); (43756, 43757, 1);
   (43763, 43764, 1); (43766, 43766, 1); (43867, 43871, 1); (43881, 43883, 1);
   (44005, 44005, 1); (44008, 44008, 1); (44013, 44013, 1); (64286, 64286, 1);
   (64434, 64450, 1); (65024, 65039, 1); (65043, 65043, 1); (65056, 65071, 1);
   (65106, 65106, 1); (65109, 65109, 1); (65279, 65279, 1); (65287, 65287, 1);
   (65294, 65294, 1); (65306, 65306, 1); (65342, 65344, 2); (65392, 65392, 1);
   (65438, 65439, 1); (65507, 65507, 1); (65529, 65531, 1); (66045, 66045, 1);
   (66272, 66272, 1); (66422, 66426, 1); (67456, 67461, 1); (67463, 67504, 1);
   (67506, 67514, 1); (68097, 68099, 1); (68101, 68102, 1); (68108, 68111, 1);
   (68152, 68154, 1); (68159, 68159, 1); (68325, 68326, 1); (68900, 68903, 1);
   (69291, 69292, 1); (69446, 69456, 1); (69506, 69509, 1); (69633, 69633, 1);
   (69688, 69702, 1); (69744, 69744, 1); (69747, 69748, 1); (69759, 69761, 1);
   (69811, 69814, 1); (69817, 69818, 1); (69821, 69821, 1); (69826, 69826, 1);
   (69837, 69837, 1); (69888, 69890, 1); (69927, 69931, 1); (69933, 69940, 1);
   (70003, 70003, 1); (70016, 70017, 1); (70070, 70078, 1); (70089, 70092, 1);
   (70095, 70095, 1); (70191, 70193, 1); (70196, 70198, 2); (70199, 70199, 1);
   (70206, 70206, 1); (70367, 70367, 1); (70371, 70378, 1); (70400, 70401, 1);
   (70459, 70460, 1); (70464, 70464, 1); (70502, 70508, 1); (70512, 70516, 1);
   (70712, 70719, 1); (70722, 70724, 1); (70726, 70726, 1); (70750, 70750, 1);
   (70835, 70840, 1); (70842, 70842, 1); (70847, 70848, 1); (70850, 70851, 1);
   (71090, 71093, 1); (71100, 71101, 1); (71103, 71104, 1); (71132, 71133, 1);
   (71219, 71226, 1); (71229, 71231, 2); (71232, 71232, 1); (71339, 71341, 2);
   (71344, 71349, 1); (71351, 71351, 1); (71453, 71455, 1); (71458, 71461, 1);
   (71463, 71467, 1); (71727, 71735, 1); (71737, 71738, 1); (71995, 71996, 1);
   (71998, 71998, 1); (72003, 72003, 1); (72148, 72151, 1); (72154, 72155, 1);
   (72160, 72160, 1); (72193, 72202, 1); (72243, 72248, 1); (72251, 72254, 1);
   (72263, 72263, 1); (72273, 72278, 1); (72281, 72283, 1); (72330, 72342, 1);
   (72344, 72345, 1); (72752, 72758, 1); (72760, 72765, 1); (72767, 72767, 1);
   (72850, 72871, 1); (72874, 72880, 1); (72882, 72883, 1); (72885, 72886, 1);
   (73009, 73014, 1); (73018, 73020, 2); (73021, 73023, 2); (73024, 73029, 1);
   (73031, 73031, 1); (73104, 73105, 1); (73109, 73111, 2); (73459, 73460, 1);
   (78896, 78904, 1); (92912, 92916, 1); (92976, 92982, 1); (92992, 92995, 1);
   (94031, 94031, 1); (94095, 94111, 1); (94176, 94177, 1); (94179, 94180, 1);
   (110576, 110579, 1); (110581, 110587, 1); (110589, 110590, 1);
   (113821, 113822, 1); (113824, 113827, 1); (118528, 118573, 1);
   (118576, 118598, 1); (119143, 119145, 1); (119155, 119170, 1);
   (119173, 119179, 1); (119210, 119213, 1); (119362, 119364, 1);
   (121344, 121398, 1); (121403, 121452, 1); (121461, 121461, 1);
   (121476, 121476, 1); (121499, 121503, 1); (121505, 121519, 1);
   (122880, 122886, 1); (122888, 122904, 1); (122907, 122913, 1);
   (122915, 122916, 1); (122918, 122922, 1); (123184, 123197, 1);
   (123566, 123566, 1); (123628, 123631, 1); (125136, 125142, 1);
   (125252, 125259, 1); (127995, 127999, 1); (917505, 917505, 1);
   (917536, 917631, 1); (917760, 917999, 1)]%N.

(** The lower-case form of a code point in UnicodeData.txt, if it has
    one. *)
Definition simpleLowerCase (c : N) : option N :=
  match List.find (fun '(lo, hi, step, _) => inRun c (lo, hi, step)) lowerCaseRuns with
  | Some (lo, _, _, target) => Some (target + (c - lo))%N
  | None => None
  end.

(** The same mappings, pair by pair. *)
Definition pairsOfRun (run : N * N * N * N) : list (N * N) :=
  let '(lo, hi, step, target) := run in
  List.map (fun k => (lo + N.of_nat k * step, target + N.of_nat k * step)%N)
           (List.seq 0 (S (N.to_nat ((hi - lo) / step)))).

Definition lowerCasePairs : list (N * N) := List.flat_map pairsOfRun lowerCaseRuns.

Definition isUpperCaseLetter (c : N) : bool := inRuns upperCaseLetterRuns c.
Definition isCased (c : N) : bool := inRuns casedRuns c.
Definition isCaseIgnorable (c : N) : bool := inRuns caseIgnorableRuns c.

(** The code points that [\s] matches: WhiteSpace (TAB, VT, FF, the
    space separators of category Zs, ZWNBSP) and LineTerminator (LF, CR,
    LS, PS). *)
Definition whiteSpace : list N :=
  [9; 10; 11; 12; 13; 32; 160; 5760; 8192; 8193; 8194; 8195; 8196; 8197; 8198;
   8199; 8200; 8201; 8202; 8232; 8233; 8239; 8287; 12288; 65279]%N.

Definition isWhiteSpace (c : N) : bool := List.existsb (N.eqb c) whiteSpace.

End Unicode.

(** ** Strings as bytes

    A JavaScript string is a sequence of UTF-16 code units.  It is
    represented here by its bytes in generalised UTF-8: every string, also
    one with an unpaired surrogate, has exactly one such representation,
    ASCII text is represented by itself, and the empty string by the empty
    string.  [decode] reads the code points back; a byte that starts no
    well-formed sequence is kept as it is.  Appending representations
    gives the representation of the appended strings wherever this file
    appends, since ASCII text always stands between two variable parts. *)
Module Utf8.

Inductive Item : Type :=
| CodePoint (c : N)
| Stray (b : ascii).

Definition isContinuation (b : ascii) : bool :=
  ((128 <=? N_of_ascii b) && (N_of_ascii b <? 192))%N.

Definition payload (b : ascii) : N := (N_of_ascii b - 128)%N.

Definition two (b1 b2 : ascii) : N :=
  ((N_of_ascii b1 - 192) * 64 + payload b2)%N.

Definition three (b1 b2 b3 : ascii) : N :=
  ((N_of_ascii b1 - 224) * 4096 + payload b2 * 64 + payload b3)%N.

Definition four (b1 b2 b3 b4 : ascii) : N :=
  ((N_of_ascii b1 - 240) * 262144 + payload b2 * 4096 + payload b3 * 64 + payload b4)%N.

Definition isTwo (b1 b2 : ascii) : bool :=
  ((194 <=? N_of_ascii b1) && (N_of_ascii b1 <? 224))%N && isContinuation b2.

Definition isThree (b1 b2 b3 : ascii) : bool :=
  ((224 <=? N_of_ascii b1) && (N_of_ascii b1 <? 240))%N
  && isContinuation b2 && isContinuation b3 && (2048 <=? three b1 b2 b3)%N.

Definition isFour (b1 b2 b3 b4 : ascii) : bool :=
  ((240 <=? N_of_ascii b1) && (N_of_ascii b1 <? 245))%N
  && isContinuation b2 && isContinuation b3 && isContinuation b4
  && (65536 <=? four b1 b2 b3 b4)%N && (four b1 b2 b3 b4 <? 1114112)%N.

Fixpoint decode (s : string) : list Item :=
  match s with
  | EmptyString => []
  | String b1 s1 =>
      if (N_of_ascii b1 <? 128)%N then CodePoint (N_of_ascii b1) :: decode s1
      else
        match s1 with
        | String b2 s2 =>
            if isTwo b1 b2 then CodePoint (two b1 b2) :: decode s2
            else
              match s2 with
              | String b3 s3 =>
                  if isThree b1 b2 b3 then CodePoint (three b1 b2 b3) :: decode s3
                  else
                    match s3 with
                    | String b4 s4 =>
                        if isFour b1 b2 b3 b4
                        then CodePoint (four b1 b2 b3 b4) :: decode s4
                        else Stray b1 :: decode s1
                    | EmptyString => Stray b1 :: decode s1
                    end
              | EmptyString => Stray b1 :: decode s1
              end
        | EmptyString => Stray b1 :: decode s1
        end
  end.

Definition encodeCodePoint (c : N) (rest : string) : string :=
  if (c <? 128)%N then String (ascii_of_N c) rest
  else if (c <? 2048)%N then
    String (ascii_of_N (192 + c / 64)) (String (ascii_of_N (128 + c mod 64)) rest)
  else if (c <? 65536)%N then
    String (ascii_of_N (224 + c / 4096))
      (String (ascii_of_N (128 + (c / 64) mod 64))
         (String (ascii_of_N (128 + c mod 64)) rest))
  else
    String (ascii_of_N (240 + c / 262144))
      (String (ascii_of_N (128 + (c / 4096) mod 64))
         (String (ascii_of_N (128 + (c / 64) mod 64))
            (String (ascii_of_N (128 + c mod 64)) rest))).

Fixpoint encode (items : list Item) : string :=
  match items with
  | [] => EmptyString
  | CodePoint c :: rest => encodeCodePoint c (encode rest)
  | Stray b :: rest => String b (encode rest)
  end.

Definition isCodePoint (i : Item) : bool :=
  match i with
  | CodePoint _ => true
  | Stray _ => false
  end.

(** The test [p] on the code point behind an item; a stray byte is no
    character and fails every test. *)
Definition holdsOf (p : N -> bool) (i : Item) : bool :=
  match i with
  | CodePoint c => p c
  | Stray _ => false
  end.

End Utf8.

(** ** The string operations the panel uses *)
Module JsString.

Import Utf8.

Fixpoint map (f : ascii -> ascii) (s : string) : string :=
  match s with
  | EmptyString => EmptyString
  | String c rest => String (f c) (map f rest)
  end.

Fixpoint forallb (p : ascii -> bool) (s : string) : bool :=
  match s with
  | EmptyString => true
  | String c rest => p c && forallb p rest
  end.

Definition ofCodePoints (cs : list N) : string := encode (List.map CodePoint cs).

(** Whether, skipping case-ignorable characters, the next character is
    a cased one. *)
Fixpoint casedNext (items : list Item) : bool :=
  match items with
  | [] => false
  | i :: rest =>
      if holdsOf Unicode.isCaseIgnorable i then casedNext rest
      else holdsOf Unicode.isCased i
  end.

(** The Final_Sigma condition of SpecialCasing.txt; [before] holds the
    preceding characters, nearest first. *)
Definition finalSigma (before after : list Item) : bool :=
  casedNext before && negb (casedNext after).

(** Default case conversion of one character: SpecialCasing.txt for
    capital sigma (U+03A3) and for capital I with dot above (U+0130),
    else the mapping of UnicodeData.txt, else the character itself. *)
Definition lowerItem (before after : list Item) (i : Item) : list Item :=
  match i with
  | Stray _ => [i]
  | CodePoint c =>
      if (c =? 931)%N then
        [CodePoint (if finalSigma before after then 962 else 963)%N]
      else if (c =? 304)%N then [CodePoint 105%N; CodePoint 775%N]
      else
        match Unicode.simpleLowerCase c with
        | Some c' => [CodePoint c']
        | None => [i]
        end
  end.

Fixpoint lowerItems (before items : list Item) : list Item :=
  match items with
  | [] => []
  | i :: rest => (lowerItem before rest i ++ lowerItems (i :: before) rest)%list
  end.

(** [value.toLowerCase()] *)
Definition toLowerCase (s : string) : string :=
  encode (lowerItems [] (decode s)).

Definition replaceItem (by_ : ascii) (i : Item) : Item :=
  if holdsOf Unicode.isWhiteSpace i then CodePoint (N_of_ascii by_) else i.

(** [value.replace(/\s/g, by)] for a one-unit replacement. *)
Definition replaceWhiteSpace (by_ : ascii) (s : string) : string :=
  encode (List.map (replaceItem by_) (decode s)).

(** [s.split(sep)] for a one-unit separator: never empty. *)
Fixpoint split (sep : ascii) (s : string) : list string :=
  match s with
  | EmptyString => [EmptyString]
  | String c rest =>
      if Ascii.eqb c sep then EmptyString :: split sep rest
      else match split sep rest with
           | seg :: segs => String c seg :: segs
           | [] => [String c EmptyString]
           end
  end.

(** [arr.pop()] as a value: the last element, [undefined] when empty. *)
Definition pop (l : list string) : option string := last l.

(** Template-literal rendering of a non-negative integer. *)
Definition ofNat (n : nat) : string := NilZero.string_of_uint (Nat.to_uint n).

End JsString.

(** ** normalizeIconPackName *)

Definition normalizeIconPackName (value : string) : string :=
  JsString.replaceWhiteSpace "-"%char (JsString.toLowerCase value).

(** What a name can contain: white space, an upper-case letter, a
    character that lower-casing replaces by another. *)
Definition hasWhiteSpace (value : string) : bool :=
  List.existsb (Utf8.holdsOf Unicode.isWhiteSpace) (Utf8.decode value).

Definition hasUpperCaseLetter (value : string) : bool :=
  List.existsb (Utf8.holdsOf Unicode.isUpperCaseLetter) (Utf8.decode value).

Definition changesWhenLowerCased (c : N) : bool :=
  match Unicode.simpleLowerCase c with
  | Some _ => true
  | None => false
  end.

Definition hasLowerCasedCharacter (value : string) : bool :=
  List.existsb (Utf8.holdsOf changesWhenLowerCased) (Utf8.decode value).

(** Character by character: the lower-case form of a code point other
    than capital sigma, whose form depends on its neighbours, and the
    hyphen for white space. *)
Definition lowerCaseForm (c : N) : list N :=
  if (c =? 304)%N then [105; 775]%N
  else match Unicode.simpleLowerCase c with
       | Some c' => [c']
       | None => [c]
       end.

Definition hyphenate (c : N) : N := if Unicode.isWhiteSpace c then 45%N else c.

(** A code point that lower-casing leaves alone. *)
Definition settled (i : Utf8.Item) : Prop :=
  exists c, i = Utf8.CodePoint c /\ (c < 1114112)%N /\ changesWhenLowerCased c = false.

(** The representation of a JavaScript string has no stray byte. *)
Definition wellFormed (value : string) : bool :=
  List.forallb Utf8.isCodePoint (Utf8.decode value).

(** ASCII text, and the normal form in the words of the specification on
    it: lower case, white space to hyphen. *)
Definition isAscii (value : string) : bool :=
  JsString.forallb (fun b => (N_of_ascii b <? 128)%N) value.

Definition asciiLowerCase (b : ascii) : ascii :=
  let n := N_of_ascii b in
  if ((65 <=? n) && (n <=? 90))%N then ascii_of_N (n + 32) else b.

Definition asciiHyphenate (b : ascii) : ascii :=
  let n := N_of_ascii b in
  if ((9 <=? n) && (n <=? 13) || (n =? 32))%N then "-"%char else b.

Definition asciiNormalize (b : ascii) : ascii := asciiHyphenate (asciiLowerCase b).
(** ** A small DOM

    The rows of the panel ([iconPackSetting.settingEl]) are the elements
    that can receive children; they are named by numbers.  A child is
    either the overlay [<div>] built by the constructor or some other
    node.  Each row carries its ordered child list and its class list. *)
Module Dom.

Inductive Node : Type :=
| Overlay
| Other (id : nat).

#[global] Instance Node_eq_dec : EqDecision Node.
Proof. solve_decision. Defined.

Record Element : Type := mkElement {
  childNodes : list Node;
  classList : list string
}.

Definition emptyElement : Element := mkElement [] [].

(** The element behind a row; a row the model has not touched yet has
    no tracked child and no class. *)
Definition element (doc : gmap nat Element) (el : nat) : Element :=
  default emptyElement (doc !! el).

Inductive DOMException : Type :=
| NotFoundError.

Inductive Completion (A : Type) : Type :=
| Normal (a : A)
| Throw (e : DOMException).
Arguments Normal {A} a.
Arguments Throw {A} e.

Definition without (node : Node) (e : Element) : Element :=
  mkElement (filter (fun n => n <> node) (childNodes e)) (classList e).

(** [parent.appendChild(node)]: a node has one parent, so it is first
    removed from wherever it is, then put last under [parent]. *)
Definition appendChild (parent : nat) (node : Node)
    (doc : gmap nat Element) : gmap nat Element :=
  let doc' := without node <$> doc in
  let p := element doc' parent in
  <[parent := mkElement (childNodes p ++ [node]) (classList p)]> doc'.

(** [parent.removeChild(node)]: throws when [node] is not a child of
    [parent]. *)
Definition removeChild (parent : nat) (node : Node)
    (doc : gmap nat Element) : Completion (gmap nat Element) :=
  if decide (node ∈ childNodes (element doc parent))
  then Normal (<[parent := without node (element doc parent)]> doc)
  else Throw NotFoundError.

(** [el.classList.add(token)] *)
Definition classList_add (el : nat) (token : string)
    (doc : gmap nat Element) : gmap nat Element :=
  let e := element doc el in
  if decide (token ∈ classList e) then doc
  else <[el := mkElement (childNodes e) (classList e ++ [token])]> doc.

(** [el.classList.remove(token)] *)
Definition classList_remove (el : nat) (token : string)
    (doc : gmap nat Element) : gmap nat Element :=
  let e := element doc el in
  <[el := mkElement (childNodes e) (filter (fun t => t <> token) (classList e))]> doc.

Definition holds (doc : gmap nat Element) (el : nat) (node : Node) : Prop :=
  node ∈ childNodes (element doc el).

Definition hasClass (doc : gmap nat Element) (el : nat) (token : string) : Prop :=
  token ∈ classList (element doc el).

(** A node freshly made by [document.createElement] has no parent. *)
Definition detached (doc : gmap nat Element) (node : Node) : Prop :=
  forall el, ~ holds doc el node.

End Dom.

(** ** The drag highlight of CustomIconPackSetting *)
Module Drag.
Import Dom.

(** The fields of the class that the drag code touches, the document
    they act on, and a millisecond clock for [setTimeout].  A pending
    [closeTimer] is its due time and the [el] its callback captured; a
    cleared or spent timer is [None]. *)
Record State : Type := mkState {
  document : gmap nat Element;
  closeTimer : option (nat * nat);
  dragTargetElement : option nat;
  clock : nat
}.

Definition dragOverElement : Node := Overlay.

(** The constructor leaves both fields undefined; the overlay it creates
    is attached nowhere. *)
Definition constructor (doc : gmap nat Element) : State :=
  mkState doc None None 0.

Definition clearTimeout (s : State) : State :=
  mkState (document s) None (dragTargetElement s) (clock s).

Definition setTimeout (el : nat) (delay : nat) (s : State) : State :=
  mkState (document s) (Some (clock s + delay, el)) (dragTargetElement s) (clock s).

(** The state [s] as it is after [ms] more milliseconds. *)
Definition later (ms : nat) (s : State) : State :=
  mkState (document s) (closeTimer s) (dragTargetElement s) (clock s + ms).

Definition highlight (el : nat) (s : State) : State :=
  let s := clearTimeout s in
  match dragTargetElement s with
  | None =>
      let doc := appendChild el dragOverElement (document s) in
      let doc := classList_add el "iconize-dragover" doc in
      mkState doc (closeTimer s) (Some el) (clock s)
  | Some _ => s
  end.

(** The three statements that both [unhighlight] and the timer callback
    run on an element. *)
Definition release (el : nat) (s : State) : Completion State :=
  match removeChild el dragOverElement (document s) with
  | Throw e => Throw e
  | Normal doc =>
      let doc := classList_remove el "iconize-dragover" doc in
      Normal (mkState doc (closeTimer s) None (clock s))
  end.

Definition unhighlight (target el : nat) (s : State) : Completion State :=
  let first :=
    match dragTargetElement s with
    | Some owner => if decide (owner <> target) then release owner s else Normal s
    | None => Normal s
    end in
  match first with
  | Throw e => Throw e
  | Normal s => Normal (setTimeout el 100 (clearTimeout s))
  end.

(** The body of the arrow function given to [setTimeout]. *)
Definition closeTimerCallback (el : nat) (s : State) : Completion State :=
  match dragTargetElement s with
  | Some _ => release el s
  | None => Normal s
  end.

(** The listeners of [display]: [dragenter] and [dragover] highlight the
    row, [dragleave] and [drop] un-highlight it with
    [event.currentTarget], which is the row the listener sits on. *)
Inductive DragEvent : Type := dragenter | dragover | dragleave | drop.

Definition dispatch (ev : DragEvent) (settingEl : nat) (s : State) : Completion State :=
  match ev with
  | dragenter | dragover => Normal (highlight settingEl s)
  | dragleave | drop => unhighlight settingEl settingEl s
  end.

(** What the event loop can do next: deliver a drag event to a row, let
    time pass, or run the timer callback when it is due (a timer that is
    not due, or cleared, runs nothing). *)
Inductive Event : Type :=
| Deliver (ev : DragEvent) (settingEl : nat)
| Elapse (ms : nat)
| RunTimers.

Definition runTimers (s : State) : Completion State :=
  match closeTimer s with
  | Some (due, el) =>
      if (due <=? clock s)%nat
      then closeTimerCallback el
             (mkState (document s) None (dragTargetElement s) (clock s))
      else Normal s
  | None => Normal s
  end.

Definition step (e : Event) (s : State) : Completion State :=
  match e with
  | Deliver ev settingEl => dispatch ev settingEl s
  | Elapse ms => Normal (later ms s)
  | RunTimers => runTimers s
  end.

Fixpoint run (es : list Event) (s : State) : Completion State :=
  match es with
  | [] => Normal s
  | e :: es' =>
      match step e s with
      | Normal s' => run es' s'
      | Throw err => Throw err
      end
  end.

(** Time-only events, and the time they let pass. *)
Definition isIdle (e : Event) : bool :=
  match e with
  | Deliver _ _ => false
  | Elapse _ | RunTimers => true
  end.

Definition isElapse (e : Event) : bool :=
  match e with
  | Elapse _ => true
  | _ => false
  end.

Definition elapsed (e : Event) : nat :=
  match e with
  | Elapse ms => ms
  | _ => 0
  end.

Definition totalElapsed (es : list Event) : nat := sum_list (elapsed <$> es).

(** The element that visibly carries the highlight. *)
Definition highlighted (s : State) (el : nat) : Prop :=
  holds (document s) el dragOverElement
  /\ hasClass (document s) el "iconize-dragover"
  /\ dragTargetElement s = Some el.

(** What the fields and the document agree on between two events: the
    owner is the one element that holds the overlay, it carries the
    class, and a pending timer was armed for the owner, if any. *)
Definition Inv (s : State) : Prop :=
  (forall el, holds (document s) el dragOverElement <-> dragTargetElement s = Some el)
  /\ (forall el, dragTargetElement s = Some el ->
                 hasClass (document s) el "iconize-dragover")
  /\ (forall due el, closeTimer s = Some (due, el) ->
                     dragTargetElement s = None \/ dragTargetElement s = Some el).

(** Handing the highlight over inside [highlight]: the previous owner is
    left without overlay and class, and the new element owns it. *)
Definition handsOver (rowA rowB : nat) (s : State) : Prop :=
  let s' := highlight rowB s in
  ~ holds (document s') rowA dragOverElement
  /\ ~ hasClass (document s') rowA "iconize-dragover"
  /\ dragTargetElement s' = Some rowB.

(** A fresh panel over an empty document, and the same panel once row 1
    is highlighted. *)
Definition fresh : State := constructor ∅.
Definition onRow1 : State := highlight 1 fresh.

End Drag.

(** ** Files handed over by the browser

    A [File] of a file input or of [dataTransfer.files]: its name, its
    MIME type and the text it holds. *)
Module File.

Record t : Type := mk {
  name : string;
  type : string;
  text : string
}.

End File.

(** ** The external collaborators

    [@app/icon-pack-manager], [@app/util] and the vault adapter are not
    part of this file.  Each call is a transition of some world that
    returns its answer; nothing is assumed about what it does, except
    that it returns (a rejected promise is outside the model).
    [iconsLength] is the read of [iconPack.icons.length] on the live pack
    object. *)
Class IconPackManager (World : Type) : Type := {
  ext_doesIconPackExist : string -> World -> bool * World;
  ext_createCustomIconPackDirectory : string -> World -> World;
  ext_createFile : string -> string -> string -> World -> World;
  ext_addIconToIconPack : string -> string -> string -> World -> World;
  ext_deleteIconPack : string -> World -> World;
  ext_getFilesInIconPackDirectory : string -> World -> list string * World;
  ext_readFileSync : File.t -> World -> string * World;
  ext_vaultRead : string -> World -> string * World;
  ext_iconsLength : string -> World -> nat
}.

(** Every call that leaves the component, in the order it is made. *)
Inductive Effect : Type :=
| DoesIconPackExist (name : string)
| CreateCustomIconPackDirectory (name : string)
| CreateFile (iconPack fileName content : string)
| AddIconToIconPack (iconPack iconName content : string)
| DeleteIconPack (iconPack : string)
| GetFilesInIconPackDirectory (iconPack : string)
| ReadFileSync (file : File.t)
| VaultRead (path : string)
| NewNotice (message : string)
| SetDesc (desc : string)
| SetValue (value : string)
| RefreshDisplay.

Declare Scope async_scope.
Delimit Scope async_scope with async.

Section Handlers.

Context {World : Type} `{IconPackManager World}.

(** What a handler can see and change: the outer world, the value of
    the text input and the description of the row it belongs to. *)
Record Host : Type := mkHost {
  world : World;
  textComponent : string;
  description : string
}.

(** An awaited computation: a result, the host afterwards and the calls
    made on the way. *)
Definition Async (A : Type) : Type := Host -> A * Host * list Effect.

Definition ret {A : Type} (a : A) : Async A := fun h => (a, h, []).

Definition bind {A B : Type} (m : Async A) (k : A -> Async B) : Async B :=
  fun h =>
    let '(a, h1, t1) := m h in
    let '(b, h2, t2) := k a h1 in
    (b, h2, (t1 ++ t2)%list).

Local Notation "'let*' x ':=' m 'in' k" := (bind m (fun x => k))
  (at level 10, x name, m at level 100, k at level 200) : async_scope.
Local Notation "'do' m 'in' k" := (bind m (fun _ => k))
  (at level 10, m at level 100, k at level 200) : async_scope.
Local Open Scope async_scope.

Definition onWorld {A : Type} (e : Effect) (f : World -> A * World) : Async A :=
  fun h =>
    let '(a, w) := f (world h) in
    (a, mkHost w (textComponent h) (description h), [e]).

Definition doesIconPackExist (name : string) : Async bool :=
  onWorld (DoesIconPackExist name) (ext_doesIconPackExist name).

Definition createCustomIconPackDirectory (name : string) : Async unit :=
  onWorld (CreateCustomIconPackDirectory name)
          (fun w => (tt, ext_createCustomIconPackDirectory name w)).

Definition createFile (iconPack fileName content : string) : Async unit :=
  onWorld (CreateFile iconPack fileName content)
          (fun w => (tt, ext_createFile iconPack fileName content w)).

Definition addIconToIconPack (iconPack iconName content : string) : Async unit :=
  onWorld (AddIconToIconPack iconPack iconName content)
          (fun w => (tt, ext_addIconToIconPack iconPack iconName content w)).

Definition deleteIconPack (iconPack : string) : Async unit :=
  onWorld (DeleteIconPack iconPack) (fun w => (tt, ext_deleteIconPack iconPack w)).

Definition getFilesInIconPackDirectory (iconPack : string) : Async (list string) :=
  onWorld (GetFilesInIconPackDirectory iconPack)
          (ext_getFilesInIconPackDirectory iconPack).

Definition readFileSync (file : File.t) : Async string :=
  onWorld (ReadFileSync file) (ext_readFileSync file).

Definition vaultRead (path : string) : Async string :=
  onWorld (VaultRead path) (ext_vaultRead path).

Definition iconsLength (iconPack : string) : Async nat :=
  fun h => (ext_iconsLength iconPack (world h), h, []).

Definition newNotice (message : string) : Async unit :=
  fun h => (tt, h, [NewNotice message]).

Definition getValue : Async string :=
  fun h => (textComponent h, h, []).

Definition setValue (value : string) : Async unit :=
  fun h => (tt, mkHost (world h) value (description h), [SetValue value]).

Definition setDesc (desc : string) : Async unit :=
  fun h => (tt, mkHost (world h) (textComponent h) desc, [SetDesc desc]).

Definition refreshDisplay : Async unit :=
  fun h => (tt, h, [RefreshDisplay]).

(** [for (...) { body }] over a list, threading the local variables
    the body assigns. *)
Fixpoint forLoop {X S : Type} (xs : list X) (body : X -> S -> Async S)
    (locals : S) : Async S :=
  match xs with
  | [] => ret locals
  | x :: rest => let* locals' := body x locals in forLoop rest body locals'
  end.

(** The click handler of the "Add icon pack" button. *)
Definition addIconPack_onClick : Async unit :=
  let* name := getValue in
  if (String.length name =? 0)%nat then ret tt
  else
    let normalizedName := normalizeIconPackName name in
    let* found := doesIconPackExist normalizedName in
    if found then newNotice "Icon pack already exists."
    else
      do createCustomIconPackDirectory normalizedName in
      do setValue "" in
      do refreshDisplay in
      newNotice ("Icon pack " ++ name ++ " (" ++ normalizedName ++ ") created.").

(** [fileSelector.onchange] of the "plus" button of a pack row; its
    loop assigns no local variable. *)
Definition onchange_body (iconPack : string) (file : File.t) (_ : unit) : Async unit :=
  let* content := readFileSync file in
  do createFile iconPack (File.name file) content in
  addIconToIconPack iconPack (File.name file) content.

Definition fileSelector_onchange (iconPack : string) (files : list File.t) : Async unit :=
  do forLoop files (onchange_body iconPack) tt in
  do setDesc (JsString.ofNat (length files) ++ " icons") in
  newNotice (JsString.ofNat (length files) ++ " icons added.").

(** [fileName.split('/').pop()]; [split] never returns an empty array,
    so [pop] always has a value. *)
Definition lastSegment (fileName : string) : string :=
  match JsString.pop (JsString.split "/" fileName) with
  | Some seg => seg
  | None => fileName
  end.

(** The click handler of the "refresh" button of a pack row, and the
    body of its loop. *)
Definition refresh_body (iconPack : string) (fileName : string) (_ : unit) : Async unit :=
  let* svg := vaultRead fileName in
  let iconName := lastSegment fileName in
  addIconToIconPack iconPack iconName svg.

Definition refresh_onClick (iconPack : string) : Async unit :=
  do setDesc "Loading icons..." in
  let* files := getFilesInIconPackDirectory iconPack in
  do forLoop files (refresh_body iconPack) tt in
  do newNotice ("Icon pack " ++ iconPack ++ " refreshed.") in
  setDesc (JsString.ofNat (length files) ++ " icons").

(** The click handler of the "trash" button of a pack row. *)
Definition delete_onClick (iconPack : string) : Async unit :=
  do deleteIconPack iconPack in
  do refreshDisplay in
  newNotice ("Icon pack " ++ iconPack ++ " deleted.").

(** The async [drop] listener of a pack row; the loop variable
    [successful] is the state of the loop. *)
Definition drop_body (iconPack : string) (file : File.t) (successful : bool) : Async bool :=
  if negb (String.eqb (File.type file) "image/svg+xml")
  then
    do newNotice ("File " ++ File.name file ++ " is not a SVG file.") in
    ret successful
  else
    let* content := readFileSync file in
    do createFile iconPack (File.name file) content in
    do addIconToIconPack iconPack (File.name file) content in
    let* total := iconsLength iconPack in
    do setDesc ("Total icons: " ++ JsString.ofNat total
                ++ " (added: " ++ File.name file ++ ")") in
    ret true.

Definition onDrop (iconPack : string) (files : list File.t) : Async unit :=
  let* successful := forLoop files (drop_body iconPack) false in
  if successful then newNotice "Icons successfully added." else ret tt.

(** Projections of a trace. *)
Definition notices (t : list Effect) : list string :=
  omap (fun e => match e with NewNotice m => Some m | _ => None end) t.

Definition createdFiles (t : list Effect) : list (string * string) :=
  omap (fun e => match e with CreateFile p f _ => Some (p, f) | _ => None end) t.

Definition registeredIcons (t : list Effect) : list (string * string) :=
  omap (fun e => match e with AddIconToIconPack p i _ => Some (p, i) | _ => None end) t.

Definition filesRead (t : list Effect) : list File.t :=
  omap (fun e => match e with ReadFileSync f => Some f | _ => None end) t.

Definition createdDirectories (t : list Effect) : list string :=
  omap (fun e => match e with CreateCustomIconPackDirectory n => Some n | _ => None end) t.

Definition descriptions (t : list Effect) : list string :=
  omap (fun e => match e with SetDesc d => Some d | _ => None end) t.

Definition trace {A : Type} (r : A * Host * list Effect) : list Effect := snd r.
Definition after {A : Type} (r : A * Host * list Effect) : Host := snd (fst r).

End Handlers.

Arguments Host World : clear implicits.
Arguments Async World A : clear implicits.

Definition isSvg (file : File.t) : bool := String.eqb (File.type file) "image/svg+xml".
Definition isPlainText (file : File.t) : bool := String.eqb (File.type file) "text/plain".

(** The notice of the drop listener for a file it turns down. *)
Definition rejection (file : File.t) : string :=
  "File " ++ File.name file ++ " is not a SVG file.".

(** The pack and name under which a file is stored and registered. *)
Definition entryOf (iconPack : string) (file : File.t) : string * string :=
  (iconPack, File.name file).

(* A manager to run the handlers against. *)

(** Modelled from the spec: the icon-pack manager ([@app/icon-pack-manager]),
    the file reader ([@app/util]) and the vault adapter, none of which is
    in this file.  Pack directories hold files by path, the registry holds
    the icons of each pack in the order they were added, reading a dropped
    or selected file returns its text. *)
Module InMemory.

Record World : Type := mkWorld {
  directories : list string;
  vault : list (string * string);
  registry : list (string * string * string)
}.

Definition directoryOf (iconPack : string) : string := "/packs/" ++ iconPack ++ "/".

Definition inDirectory (iconPack : string) (entry : string * string) : bool :=
  String.prefix (directoryOf iconPack) (fst entry).

Definition ofPack (iconPack : string) (icon : string * string * string) : bool :=
  String.eqb (fst (fst icon)) iconPack.

Definition readPath (path : string) (w : World) : string :=
  match List.find (fun entry => String.eqb (fst entry) path) (vault w) with
  | Some entry => snd entry
  | None => ""
  end.

(** Modelled from the spec: the calls of section 6 on the in-memory
    world. *)
#[global] Instance manager : IconPackManager World := {
  ext_doesIconPackExist name w :=
    (List.existsb (String.eqb name) (directories w), w);
  ext_createCustomIconPackDirectory name w :=
    mkWorld (directories w ++ [name]) (vault w) (registry w);
  ext_createFile iconPack fileName content w :=
    mkWorld (directories w)
            (vault w ++ [(directoryOf iconPack ++ fileName, content)])
            (registry w);
  ext_addIconToIconPack iconPack iconName content w :=
    mkWorld (directories w) (vault w) (registry w ++ [(iconPack, iconName, content)]);
  ext_deleteIconPack iconPack w :=
    mkWorld (List.filter (fun d => negb (String.eqb d iconPack)) (directories w))
            (List.filter (fun entry => negb (inDirectory iconPack entry)) (vault w))
            (List.filter (fun icon => negb (ofPack iconPack icon)) (registry w));
  ext_getFilesInIconPackDirectory iconPack w :=
    (fst <$> List.filter (inDirectory iconPack) (vault w), w);
  ext_readFileSync file w := (File.text file, w);
  ext_vaultRead path w := (readPath path w, w);
  ext_iconsLength iconPack w := length (List.filter (ofPack iconPack) (registry w))
}.

Definition fooWorld : World :=
  mkWorld ["foo"]
          [("/packs/foo/a.svg", "<svg>a</svg>"); ("/packs/foo/b.svg", "<svg>b</svg>")]
          [].

Definition start (value : string) : Host World := mkHost fooWorld value "0 icons".

End InMemory.

Definition aSvg : File.t := File.mk "a.svg" "image/svg+xml" "<svg>a</svg>".
Definition bSvg : File.t := File.mk "b.svg" "image/svg+xml" "<svg>b</svg>".
Definition notes : File.t := File.mk "notes.txt" "text/plain" "hello".

(** ** Further vocabulary for the handlers and the drag highlight *)

(** A string without the given code unit. *)
Definition freeOf (sep : ascii) (s : string) : bool :=
  JsString.forallb (fun c => negb (Ascii.eqb c sep)) s.

(** Further projections of a trace: what was stored and what was
    registered, with the content, the vault paths read, the redraws asked
    for and the packs deleted. *)
Definition storedEntries (t : list Effect) : list (string * string * string) :=
  omap (fun e => match e with CreateFile p f c => Some (p, f, c) | _ => None end) t.

Definition registeredEntries (t : list Effect) : list (string * string * string) :=
  omap (fun e => match e with AddIconToIconPack p i c => Some (p, i, c) | _ => None end) t.

Definition pathsRead (t : list Effect) : list string :=
  omap (fun e => match e with VaultRead p => Some p | _ => None end) t.

Definition redraws (t : list Effect) : list unit :=
  omap (fun e => match e with RefreshDisplay => Some tt | _ => None end) t.

Definition deletedPacks (t : list Effect) : list string :=
  omap (fun e => match e with DeleteIconPack p => Some p | _ => None end) t.

(** The description the drop listener writes after an accepted file. *)
Definition dropDescription (total : nat) (file : File.t) : string :=
  "Total icons: " ++ JsString.ofNat total ++ " (added: " ++ File.name file ++ ")".

(** A document in which no row carries the highlight class. *)
Definition unmarked (doc : gmap nat Dom.Element) : Prop :=
  forall el, ~ Dom.hasClass doc el "iconize-dragover".

(** The events that [display] answers with [unhighlight]. *)
Definition leaves (ev : Drag.DragEvent) : bool :=
  match ev with
  | Drag.dragleave | Drag.drop => true
  | Drag.dragenter | Drag.dragover => false
  end.

(** The highlight class sits on no element but the owner. *)
Definition marksOnlyOwner (s : Drag.State) : Prop :=
  forall el, Dom.hasClass (Drag.document s) el "iconize-dragover" ->
             Drag.dragTargetElement s = Some el.

(** * Facts about the representation of strings *)

Section Utf8Facts.
Import Utf8.

Local Open Scope N_scope.

Local Ltac bools :=
  repeat match goal with
    | H : (_ && _)%bool = true |- _ => apply andb_prop in H as [? ?]
    | H : (_ <=? _) = true |- _ => apply N.leb_le in H
    | H : (_ <? _) = true |- _ => apply N.ltb_lt in H
    | H : (_ <=? _) = false |- _ => apply N.leb_gt in H
    | H : (_ <? _) = false |- _ => apply N.ltb_ge in H
    end.

Local Ltac narith := zify; Z.to_euclidean_division_equations; lia.

Lemma byte_eq (n : N) (b : ascii) : n = N_of_ascii b -> ascii_of_N n = b.
Proof. intros ->. apply ascii_N_embedding. Qed.

Lemma byte_value (n : N) : n < 256 -> N_of_ascii (ascii_of_N n) = n.
Proof. apply N_ascii_embedding. Qed.

Lemma encode_one (b : ascii) (rest : string) :
  N_of_ascii b < 128 -> encodeCodePoint (N_of_ascii b) rest = String b rest.
Proof.
  intros Hb. unfold encodeCodePoint. apply N.ltb_lt in Hb. rewrite Hb.
  now rewrite ascii_N_embedding.
Qed.

Lemma encode_two (b1 b2 : ascii) (rest : string) :
  isTwo b1 b2 = true -> encodeCodePoint (two b1 b2) rest = String b1 (String b2 rest).
Proof.
  unfold isTwo, isContinuation, encodeCodePoint, two, payload. intros Hv. bools.
  destruct (N.ltb_spec ((N_of_ascii b1 - 192) * 64 + (N_of_ascii b2 - 128)) 128);
    [narith|].
  destruct (N.ltb_spec ((N_of_ascii b1 - 192) * 64 + (N_of_ascii b2 - 128)) 2048);
    [|narith].
  f_equal; [|f_equal]; apply byte_eq; narith.
Qed.

Lemma encode_three (b1 b2 b3 : ascii) (rest : string) :
  isThree b1 b2 b3 = true ->
  encodeCodePoint (three b1 b2 b3) rest = String b1 (String b2 (String b3 rest)).
Proof.
  unfold isThree, isContinuation, encodeCodePoint. intros Hv. bools.
  unfold three, payload in *.
  set (c := (N_of_ascii b1 - 224) * 4096 + (N_of_ascii b2 - 128) * 64
            + (N_of_ascii b3 - 128)) in *.
  destruct (N.ltb_spec c 128); [lia|].
  destruct (N.ltb_spec c 2048); [lia|].
  destruct (N.ltb_spec c 65536); [|subst c; narith].
  subst c. f_equal; [|f_equal; [|f_equal]]; apply byte_eq; narith.
Qed.

Lemma encode_four (b1 b2 b3 b4 : ascii) (rest : string) :
  isFour b1 b2 b3 b4 = true ->
  encodeCodePoint (four b1 b2 b3 b4) rest
  = String b1 (String b2 (String b3 (String b4 rest))).
Proof.
  unfold isFour, isContinuation, encodeCodePoint. intros Hv. bools.
  unfold four, payload in *.
  set (c := (N_of_ascii b1 - 240) * 262144 + (N_of_ascii b2 - 128) * 4096
            + (N_of_ascii b3 - 128) * 64 + (N_of_ascii b4 - 128)) in *.
  destruct (N.ltb_spec c 128); [lia|].
  destruct (N.ltb_spec c 2048); [lia|].
  destruct (N.ltb_spec c 65536); [lia|].
  subst c. f_equal; [|f_equal; [|f_equal; [|f_equal]]]; apply byte_eq; narith.
Qed.

Lemma encode_decode_bounded (n : nat) :
  forall s, (String.length s <= n)%nat -> encode (decode s) = s.
Proof.
  induction n as [|n IH]; intros s Hlen.
  - destruct s; [reflexivity|cbn in Hlen; lia].
  - destruct s as [|b1 s1]; [reflexivity|]. cbn [String.length] in Hlen.
    assert (Hstray : encode (Stray b1 :: decode s1) = String b1 s1).
    { cbn [encode]. f_equal. apply IH. lia. }
    cbn [decode]. destruct (N.ltb_spec (N_of_ascii b1) 128) as [H1|H1].
    { cbn [encode]. rewrite encode_one by assumption. f_equal. apply IH. lia. }
    destruct s1 as [|b2 s2]; [exact Hstray|]. cbn [String.length] in Hlen.
    destruct (isTwo b1 b2) eqn:H2.
    { cbn [encode]. rewrite encode_two by assumption. do 2 f_equal. apply IH. lia. }
    destruct s2 as [|b3 s3]; [exact Hstray|]. cbn [String.length] in Hlen.
    destruct (isThree b1 b2 b3) eqn:H3.
    { cbn [encode]. rewrite encode_three by assumption. do 3 f_equal. apply IH. lia. }
    destruct s3 as [|b4 s4]; [exact Hstray|]. cbn [String.length] in Hlen.
    destruct (isFour b1 b2 b3 b4) eqn:H4; [|exact Hstray].
    cbn [encode]. rewrite encode_four by assumption. do 4 f_equal. apply IH. lia.
Qed.

(** Reading the code points and writing them back gives the same bytes. *)
Lemma encode_decode (s : string) : encode (decode s) = s.
Proof. now apply (encode_decode_bounded (String.length s)). Qed.

(** Writing a code point and reading it back gives the code point. *)
Lemma decode_encodeCodePoint (c : N) (rest : string) :
  c < 1114112 -> decode (encodeCodePoint c rest) = CodePoint c :: decode rest.
Proof.
  intros Hc. unfold encodeCodePoint.
  destruct (N.ltb_spec c 128) as [H1|H1].
  { cbn [decode]. rewrite byte_value by lia. apply N.ltb_lt in H1. now rewrite H1. }
  destruct (N.ltb_spec c 2048) as [H2|H2].
  { cbn [decode]. unfold isTwo, isContinuation, two, payload.
    rewrite !byte_value by narith.
    destruct (N.ltb_spec (192 + c / 64) 128); [narith|].
    destruct (N.leb_spec 194 (192 + c / 64)); [|narith].
    destruct (N.ltb_spec (192 + c / 64) 224); [|narith].
    destruct (N.leb_spec 128 (128 + c mod 64)); [|narith].
    destruct (N.ltb_spec (128 + c mod 64) 192); [|narith].
    cbn [andb]. do 2 f_equal. narith. }
  destruct (N.ltb_spec c 65536) as [H3|H3].
  { cbn [decode]. unfold isTwo, isThree, isContinuation, three, payload.
    rewrite !byte_value by narith.
    destruct (N.ltb_spec (224 + c / 4096) 128); [narith|].
    destruct (N.ltb_spec (224 + c / 4096) 224); [narith|].
    rewrite andb_false_r. cbn [andb].
    destruct (N.leb_spec 224 (224 + c / 4096)); [|narith].
    destruct (N.ltb_spec (224 + c / 4096) 240); [|narith].
    destruct (N.leb_spec 128 (128 + (c / 64) mod 64)); [|narith].
    destruct (N.ltb_spec (128 + (c / 64) mod 64) 192); [|narith].
    destruct (N.leb_spec 128 (128 + c mod 64)); [|narith].
    destruct (N.ltb_spec (128 + c mod 64) 192); [|narith].
    cbn [andb].
    assert (Hval : (224 + c / 4096 - 224) * 4096 + (128 + (c / 64) mod 64 - 128) * 64
                   + (128 + c mod 64 - 128) = c) by narith.
    rewrite Hval. destruct (N.leb_spec 2048 c); [reflexivity|lia]. }
  cbn [decode]. unfold isTwo, isThree, isFour, isContinuation, four, payload.
  rewrite !byte_value by narith.
  destruct (N.ltb_spec (240 + c / 262144) 128); [narith|].
  destruct (N.ltb_spec (240 + c / 262144) 224); [narith|].
  destruct (N.ltb_spec (240 + c / 262144) 240); [narith|].
  rewrite !andb_false_r. cbn [andb].
  destruct (N.leb_spec 240 (240 + c / 262144)); [|narith].
  destruct (N.ltb_spec (240 + c / 262144) 245); [|narith].
  destruct (N.leb_spec 128 (128 + (c / 4096) mod 64)); [|narith].
  destruct (N.ltb_spec (128 + (c / 4096) mod 64) 192); [|narith].
  destruct (N.leb_spec 128 (128 + (c / 64) mod 64)); [|narith].
  destruct (N.ltb_spec (128 + (c / 64) mod 64) 192); [|narith].
  destruct (N.leb_spec 128 (128 + c mod 64)); [|narith].
  destruct (N.ltb_spec (128 + c mod 64) 192); [|narith].
  cbn [andb].
  assert (Hval : (240 + c / 262144 - 240) * 262144 + (128 + (c / 4096) mod 64 - 128) * 4096
                 + (128 + (c / 64) mod 64 - 128) * 64 + (128 + c mod 64 - 128) = c)
    by narith.
  rewrite Hval.
  destruct (N.leb_spec 65536 c); [|lia]. destruct (N.ltb_spec c 1114112); [reflexivity|lia].
Qed.

(** The code points that [decode] reads are code points. *)
Lemma decode_valid (s : string) :
  Forall (fun i => forall c, i = CodePoint c -> c < 1114112) (decode s).
Proof.
  assert (Hb : forall n s, (String.length s <= n)%nat ->
               Forall (fun i => forall c, i = CodePoint c -> c < 1114112) (decode s)).
  { clear s. induction n as [|n IH]; intros s Hlen.
    - destruct s; [constructor|cbn in Hlen; lia].
    - destruct s as [|b1 s1]; [constructor|]. cbn [String.length] in Hlen.
      assert (Hstray : Forall (fun i => forall c, i = CodePoint c -> c < 1114112)
                         (Stray b1 :: decode s1)).
      { constructor; [discriminate|]. apply IH. lia. }
      cbn [decode]. destruct (N.ltb_spec (N_of_ascii b1) 128) as [H1|H1].
      { constructor; [intros c [= <-]; lia|]. apply IH. lia. }
      destruct s1 as [|b2 s2]; [exact Hstray|]. cbn [String.length] in Hlen.
      destruct (isTwo b1 b2) eqn:H2.
      { constructor; [|apply IH; lia]. intros c [= <-].
        unfold isTwo, isContinuation, two, payload in *. bools. narith. }
      destruct s2 as [|b3 s3]; [exact Hstray|]. cbn [String.length] in Hlen.
      destruct (isThree b1 b2 b3) eqn:H3.
      { constructor; [|apply IH; lia]. intros c [= <-].
        unfold isThree, isContinuation, three, payload in *. bools. narith. }
      destruct s3 as [|b4 s4]; [exact Hstray|]. cbn [String.length] in Hlen.
      destruct (isFour b1 b2 b3 b4) eqn:H4; [|exact Hstray].
      constructor; [|apply IH; lia]. intros c [= <-].
      unfold isFour in H4. bools. assumption. }
  now apply (Hb (String.length s)).
Qed.

(** A list of code points is read back as it was written. *)
Lemma decode_encode (items : list Item) :
  Forall (fun i => exists c, i = CodePoint c /\ c < 1114112) items ->
  decode (encode items) = items.
Proof.
  induction 1 as [|i items (c & -> & Hc) _ IH]; [reflexivity|].
  cbn [encode]. rewrite decode_encodeCodePoint by assumption. now rewrite IH.
Qed.

Lemma decode_empty (s : string) : decode s = [] -> s = "".
Proof. intros E. rewrite <- (encode_decode s), E. reflexivity. Qed.

Lemma encode_empty (items : list Item) : encode items = "" -> items = [].
Proof.
  destruct items as [|[c|b] rest]; [reflexivity| |discriminate].
  cbn [encode]. unfold encodeCodePoint.
  destruct (c <? 128); [discriminate|]. destruct (c <? 2048); [discriminate|].
  destruct (c <? 65536); discriminate.
Qed.

End Utf8Facts.

(** * Facts about the Unicode data *)

Section UnicodeFacts.

Local Open Scope N_scope.

Local Ltac narith := zify; Z.to_euclidean_division_equations; lia.

Lemma inRun_pairsOfRun (c lo hi step target : N) :
  Unicode.inRun c (lo, hi, step) = true ->
  In (c, target + (c - lo)) (Unicode.pairsOfRun (lo, hi, step, target)).
Proof.
  unfold Unicode.inRun, Unicode.pairsOfRun. intros Hin.
  apply andb_prop in Hin as [Hin Hmod]. apply andb_prop in Hin as [Hlo Hhi].
  apply N.leb_le in Hlo, Hhi. apply N.eqb_eq in Hmod.
  apply in_map_iff. exists (N.to_nat ((c - lo) / step)). split.
  - rewrite N2Nat.id. pose proof (N.div_mod' (c - lo) step) as Hdm.
    rewrite Hmod in Hdm. f_equal; lia.
  - apply in_seq. split; [apply Nat.le_0_l|]. cbn [plus].
    assert ((c - lo) / step <= (hi - lo) / step).
    { destruct (N.eq_dec step 0) as [->|Hs]; [now destruct (c - lo), (hi - lo)|].
      apply N.Div0.div_le_mono. lia. }
    lia.
Qed.

Lemma simpleLowerCase_pairs (c c' : N) :
  Unicode.simpleLowerCase c = Some c' -> In (c, c') Unicode.lowerCasePairs.
Proof.
  unfold Unicode.simpleLowerCase, Unicode.lowerCasePairs.
  destruct (List.find _ Unicode.lowerCaseRuns) as [[[[lo hi] step] target]|] eqn:Hfind;
    [|discriminate].
  intros [= <-]. apply find_some in Hfind as [Hrun Hin].
  apply in_flat_map. exists (lo, hi, step, target). split; [exact Hrun|].
  now apply inRun_pairsOfRun.
Qed.

(** Every lower-case form is a code point, has no lower-case form of
    its own and is no white space. *)
Lemma lowerCase_forms (c c' : N) :
  Unicode.simpleLowerCase c = Some c' ->
  c' < 1114112 /\ Unicode.simpleLowerCase c' = None.
Proof.
  intros Hl. apply simpleLowerCase_pairs in Hl.
  assert (Hall : List.forallb
                   (fun p => (snd p <? 1114112)
                             && match Unicode.simpleLowerCase (snd p) with
                                | Some _ => false
                                | None => true
                                end)
                   Unicode.lowerCasePairs = true) by (vm_compute; reflexivity).
  rewrite forallb_forall in Hall. specialize (Hall _ Hl). cbn [snd] in Hall.
  apply andb_prop in Hall as [Hlt Hnone]. apply N.ltb_lt in Hlt.
  split; [exact Hlt|]. now destruct (Unicode.simpleLowerCase c').
Qed.

End UnicodeFacts.

(** * Facts about normalizeIconPackName *)

Section NormalizeFacts.
Import Utf8.

Local Open Scope N_scope.

Lemma lowerItem_unchanged (before after : list Item) (i : Item) :
  holdsOf changesWhenLowerCased i = false -> JsString.lowerItem before after i = [i].
Proof.
  destruct i as [c|b]; [|reflexivity]. cbn [holdsOf]. unfold changesWhenLowerCased.
  intros Hc. unfold JsString.lowerItem.
  destruct (N.eqb_spec c 931) as [->|_]; [vm_compute in Hc; discriminate|].
  destruct (N.eqb_spec c 304) as [->|_]; [vm_compute in Hc; discriminate|].
  now destruct (Unicode.simpleLowerCase c).
Qed.

Lemma lowerItems_unchanged (items : list Item) :
  forall before,
    List.existsb (holdsOf changesWhenLowerCased) items = false ->
    JsString.lowerItems before items = items.
Proof.
  induction items as [|i rest IH]; intros before Hnone; [reflexivity|].
  cbn [List.existsb] in Hnone. apply orb_false_elim in Hnone as [Hi Hrest].
  cbn [JsString.lowerItems]. rewrite (lowerItem_unchanged _ _ _ Hi), (IH _ Hrest).
  reflexivity.
Qed.

Lemma replaceItems_unchanged (by_ : ascii) (items : list Item) :
  List.existsb (holdsOf Unicode.isWhiteSpace) items = false ->
  List.map (JsString.replaceItem by_) items = items.
Proof.
  induction items as [|i rest IH]; [reflexivity|].
  cbn [List.existsb List.map]. intros Hnone.
  apply orb_false_elim in Hnone as [Hi Hrest].
  unfold JsString.replaceItem at 1. now rewrite Hi, (IH Hrest).
Qed.

(** A name without white space and without a character that
    lower-casing replaces is returned as it is. *)
Lemma normalize_fixed (value : string) :
  hasLowerCasedCharacter value = false -> hasWhiteSpace value = false ->
  normalizeIconPackName value = value.
Proof.
  unfold hasLowerCasedCharacter, hasWhiteSpace, normalizeIconPackName. intros Hl Hw.
  unfold JsString.toLowerCase. rewrite (lowerItems_unchanged _ _ Hl), encode_decode.
  unfold JsString.replaceWhiteSpace.
  now rewrite (replaceItems_unchanged _ _ Hw), encode_decode.
Qed.

Lemma lowerItem_settled (before after : list Item) (c : N) :
  c < 1114112 -> Forall settled (JsString.lowerItem before after (CodePoint c)).
Proof.
  intros Hc. unfold JsString.lowerItem.
  destruct (N.eqb_spec c 931) as [->|_].
  { constructor; [|constructor]. destruct (JsString.finalSigma before after);
      eexists; (split; [reflexivity|]); split; (lia || (vm_compute; reflexivity)). }
  destruct (N.eqb_spec c 304) as [->|_].
  { repeat constructor; eexists; (split; [reflexivity|]);
      split; (lia || (vm_compute; reflexivity)). }
  destruct (Unicode.simpleLowerCase c) as [c'|] eqn:Hl.
  - destruct (lowerCase_forms c c' Hl) as [Hlt Hnone].
    constructor; [|constructor]. exists c'. split; [reflexivity|]. split; [exact Hlt|].
    unfold changesWhenLowerCased. now rewrite Hnone.
  - constructor; [|constructor]. exists c. split; [reflexivity|]. split; [exact Hc|].
    unfold changesWhenLowerCased. now rewrite Hl.
Qed.

Lemma lowerItems_settled (items : list Item) :
  forall before,
    Forall (fun i => exists c, i = CodePoint c /\ c < 1114112) items ->
    Forall settled (JsString.lowerItems before items).
Proof.
  induction items as [|i rest IH]; intros before Hall; [constructor|].
  apply Forall_cons in Hall as [(c & -> & Hc) Hrest].
  cbn [JsString.lowerItems]. apply Forall_app. split.
  - now apply lowerItem_settled.
  - now apply IH.
Qed.

Lemma wellFormed_items (value : string) :
  wellFormed value = true ->
  Forall (fun i => exists c, i = CodePoint c /\ c < 1114112) (decode value).
Proof.
  unfold wellFormed. intros Hwf. rewrite forallb_forall in Hwf.
  pose proof (decode_valid value) as Hval. rewrite Forall_forall in Hval.
  apply Forall_forall. intros i Hin. apply list_elem_of_In in Hin.
  specialize (Hwf i Hin). destruct i as [c|b]; [|discriminate].
  exists c. split; [reflexivity|]. apply (Hval (CodePoint c)); [|reflexivity].
  now apply list_elem_of_In.
Qed.

Lemma settled_codePoints (items : list Item) :
  Forall settled items ->
  Forall (fun i => exists c, i = CodePoint c /\ c < 1114112) items.
Proof.
  intros Hs. eapply Forall_impl; [exact Hs|]. intros i (c & -> & Hc & _). eauto.
Qed.

Lemma settled_unchanged (items : list Item) :
  Forall settled items -> List.existsb (holdsOf changesWhenLowerCased) items = false.
Proof.
  induction 1 as [|i rest (c & -> & _ & Hc) _ IH]; [reflexivity|].
  cbn [List.existsb holdsOf]. now rewrite Hc, IH.
Qed.

Lemma settled_wellFormed (items : list Item) :
  Forall settled items -> List.forallb isCodePoint items = true.
Proof.
  induction 1 as [|i rest (c & -> & _ & _) _ IH]; [reflexivity|].
  cbn [List.forallb isCodePoint]. exact IH.
Qed.

Lemma replaceItems_settled (items : list Item) :
  Forall settled items ->
  Forall settled (List.map (JsString.replaceItem "-") items)
  /\ List.existsb (holdsOf Unicode.isWhiteSpace)
       (List.map (JsString.replaceItem "-") items) = false.
Proof.
  induction 1 as [|i rest (c & -> & Hc & Hl) _ [IH1 IH2]]; [split; [constructor|reflexivity]|].
  cbn [List.map List.existsb]. unfold JsString.replaceItem at 1 3. cbn [holdsOf].
  destruct (Unicode.isWhiteSpace c) eqn:Hw.
  - split; [|cbn [holdsOf]; exact IH2].
    constructor; [|exact IH1]. eexists. split; [reflexivity|].
    split; [vm_compute; reflexivity|vm_compute; reflexivity].
  - split; [|cbn [holdsOf]; now rewrite Hw].
    constructor; [|exact IH1]. exists c. auto.
Qed.

(** The code points of a normalized well-formed name. *)
Lemma normalize_items (value : string) :
  wellFormed value = true ->
  Forall settled (decode (normalizeIconPackName value))
  /\ hasWhiteSpace (normalizeIconPackName value) = false.
Proof.
  intros Hwf. unfold normalizeIconPackName, JsString.replaceWhiteSpace, JsString.toLowerCase,
    hasWhiteSpace.
  pose proof (lowerItems_settled _ [] (wellFormed_items value Hwf)) as H1.
  rewrite (decode_encode _ (settled_codePoints _ H1)).
  destruct (replaceItems_settled _ H1) as [H2 Hw].
  rewrite (decode_encode _ (settled_codePoints _ H2)). split; assumption.
Qed.

Lemma normalize_settles (value : string) :
  wellFormed value = true ->
  wellFormed (normalizeIconPackName value) = true
  /\ hasWhiteSpace (normalizeIconPackName value) = false
  /\ hasLowerCasedCharacter (normalizeIconPackName value) = false
  /\ normalizeIconPackName (normalizeIconPackName value) = normalizeIconPackName value.
Proof.
  intros Hwf. destruct (normalize_items value Hwf) as [Hs Hw].
  assert (Hl : hasLowerCasedCharacter (normalizeIconPackName value) = false)
    by now apply settled_unchanged.
  split; [now apply settled_wellFormed|]. split; [exact Hw|]. split; [exact Hl|].
  now apply normalize_fixed.
Qed.

Lemma lowerItems_empty (before items : list Item) :
  JsString.lowerItems before items = [] -> items = [].
Proof.
  destruct items as [|i rest]; [reflexivity|]. cbn [JsString.lowerItems].
  intros E. apply app_eq_nil in E as [E _]. exfalso. revert E.
  destruct i as [c|b]; [|discriminate]. unfold JsString.lowerItem.
  destruct (c =? 931); [discriminate|]. destruct (c =? 304); [discriminate|].
  destruct (Unicode.simpleLowerCase c); discriminate.
Qed.

Lemma normalize_nonempty (value : string) :
  value <> "" -> normalizeIconPackName value <> "".
Proof.
  intros Hne E. apply Hne. apply decode_empty.
  unfold normalizeIconPackName, JsString.replaceWhiteSpace, JsString.toLowerCase in E.
  apply encode_empty, map_eq_nil, decode_empty, encode_empty in E.
  now apply lowerItems_empty in E.
Qed.

End NormalizeFacts.

Section AsciiFacts.
Import Utf8.

Local Open Scope N_scope.

Local Ltac all_bytes b :=
  destruct b as [[] [] [] [] [] [] [] []]; vm_compute; reflexivity.

Lemma ascii_lower_byte (b : ascii) :
  (if N_of_ascii b <? 128
   then negb (N_of_ascii b =? 931) && negb (N_of_ascii b =? 304)
        && (match Unicode.simpleLowerCase (N_of_ascii b) with
            | Some c' => c'
            | None => N_of_ascii b
            end =? N_of_ascii (asciiLowerCase b))
        && (N_of_ascii (asciiLowerCase b) <? 128)
   else true) = true.
Proof. all_bytes b. Qed.

Lemma ascii_hyphen_byte (b : ascii) :
  (if N_of_ascii b <? 128
   then (match JsString.replaceItem "-" (CodePoint (N_of_ascii b)) with
         | CodePoint c => c
         | Stray _ => 0
         end =? N_of_ascii (asciiHyphenate b))
        && (N_of_ascii (asciiHyphenate b) <? 128)
   else true) = true.
Proof. all_bytes b. Qed.

Lemma lowerItem_ascii (before after : list Item) (b : ascii) :
  N_of_ascii b < 128 ->
  JsString.lowerItem before after (CodePoint (N_of_ascii b))
  = [CodePoint (N_of_ascii (asciiLowerCase b))]
  /\ N_of_ascii (asciiLowerCase b) < 128.
Proof.
  intros Hb. pose proof (ascii_lower_byte b) as Hc.
  apply N.ltb_lt in Hb. rewrite Hb in Hc.
  apply andb_prop in Hc as [Hc Hlt]. apply andb_prop in Hc as [Hc Heq].
  apply andb_prop in Hc as [H1 H2]. apply negb_true_iff in H1, H2.
  apply N.eqb_eq in Heq. apply N.ltb_lt in Hlt. split; [|exact Hlt].
  unfold JsString.lowerItem. rewrite H1, H2, <- Heq.
  now destruct (Unicode.simpleLowerCase (N_of_ascii b)).
Qed.

Lemma replaceItem_ascii (b : ascii) :
  N_of_ascii b < 128 ->
  JsString.replaceItem "-" (CodePoint (N_of_ascii b))
  = CodePoint (N_of_ascii (asciiHyphenate b))
  /\ N_of_ascii (asciiHyphenate b) < 128.
Proof.
  intros Hb. pose proof (ascii_hyphen_byte b) as Hc.
  apply N.ltb_lt in Hb. rewrite Hb in Hc.
  apply andb_prop in Hc as [Heq Hlt]. apply N.eqb_eq in Heq. apply N.ltb_lt in Hlt.
  split; [|exact Hlt]. rewrite <- Heq. unfold JsString.replaceItem. cbn [holdsOf].
  now destruct (Unicode.isWhiteSpace (N_of_ascii b)).
Qed.

Lemma decode_ascii (b : ascii) (s : string) :
  N_of_ascii b < 128 -> decode (String b s) = CodePoint (N_of_ascii b) :: decode s.
Proof. intros Hb. cbn [decode]. apply N.ltb_lt in Hb. now rewrite Hb. Qed.

Lemma isAscii_cons (b : ascii) (s : string) :
  isAscii (String b s) = true -> N_of_ascii b < 128 /\ isAscii s = true.
Proof.
  unfold isAscii. cbn [JsString.forallb]. intros Ha.
  apply andb_prop in Ha as [Hb Hs]. apply N.ltb_lt in Hb. now split.
Qed.

Lemma toLowerCase_ascii (s : string) :
  forall before,
    isAscii s = true ->
    encode (JsString.lowerItems before (decode s)) = JsString.map asciiLowerCase s
    /\ isAscii (JsString.map asciiLowerCase s) = true.
Proof.
  induction s as [|b s IH]; intros before Ha; [split; reflexivity|].
  apply isAscii_cons in Ha as [Hb Hs].
  rewrite (decode_ascii b s Hb). cbn [JsString.lowerItems JsString.map].
  destruct (lowerItem_ascii before (decode s) b Hb) as [-> Hlt].
  destruct (IH (CodePoint (N_of_ascii b) :: before) Hs) as [IH1 IH2].
  cbn [app encode]. rewrite (encode_one _ _ Hlt), IH1. split; [reflexivity|].
  unfold isAscii in *. cbn [JsString.forallb]. apply N.ltb_lt in Hlt.
  now rewrite Hlt, IH2.
Qed.

Lemma replaceWhiteSpace_ascii (s : string) :
  isAscii s = true ->
  JsString.replaceWhiteSpace "-" s = JsString.map asciiHyphenate s.
Proof.
  unfold JsString.replaceWhiteSpace.
  induction s as [|b s IH]; intros Ha; [reflexivity|].
  apply isAscii_cons in Ha as [Hb Hs].
  rewrite (decode_ascii b s Hb). cbn [List.map JsString.map].
  destruct (replaceItem_ascii b Hb) as [-> Hlt].
  cbn [encode]. now rewrite (encode_one _ _ Hlt), (IH Hs).
Qed.

Lemma map_map (f g : ascii -> ascii) (s : string) :
  JsString.map f (JsString.map g s) = JsString.map (fun b => f (g b)) s.
Proof. induction s as [|b s IH]; [reflexivity|]. cbn [JsString.map]. now rewrite IH. Qed.

(** On ASCII text the normal form is what the specification says:
    lower case, white space to hyphen. *)
Lemma normalize_ascii (value : string) :
  isAscii value = true ->
  normalizeIconPackName value = JsString.map asciiNormalize value.
Proof.
  intros Ha. unfold normalizeIconPackName, JsString.toLowerCase.
  destruct (toLowerCase_ascii value [] Ha) as [-> Ha'].
  rewrite (replaceWhiteSpace_ascii _ Ha'), map_map. reflexivity.
Qed.

Lemma whiteSpace_to_hyphen :
  Forall (fun c => normalizeIconPackName (JsString.ofCodePoints [c]) = "-")
         Unicode.whiteSpace.
Proof.
  apply Forall_forall. intros c Hin. apply list_elem_of_In in Hin.
  assert (Hall : List.forallb
                   (fun c => String.eqb (normalizeIconPackName (JsString.ofCodePoints [c])) "-")
                   Unicode.whiteSpace = true) by (vm_compute; reflexivity).
  rewrite forallb_forall in Hall. apply String.eqb_eq. now apply Hall.
Qed.

End AsciiFacts.

Section CodePointFacts.
Import Utf8.

Local Open Scope N_scope.

Lemma decode_ofCodePoints (cs : list N) :
  Forall (fun c => c < 1114112) cs ->
  decode (JsString.ofCodePoints cs) = List.map CodePoint cs.
Proof.
  intros Hv. apply decode_encode. apply Forall_forall. intros i Hin.
  apply list_elem_of_In, in_map_iff in Hin as (c & <- & Hin).
  exists c. split; [reflexivity|]. rewrite Forall_forall in Hv.
  now apply Hv, list_elem_of_In.
Qed.

Lemma lowerItems_codePoints (cs : list N) :
  forall before,
    Forall (fun c => c <> 931) cs ->
    JsString.lowerItems before (List.map CodePoint cs)
    = List.map CodePoint (List.flat_map lowerCaseForm cs).
Proof.
  induction cs as [|c cs IH]; intros before Hs; [reflexivity|].
  apply Forall_cons in Hs as [Hc Hs].
  cbn [List.map List.flat_map JsString.lowerItems]. rewrite List.map_app, (IH _ Hs).
  f_equal. unfold JsString.lowerItem, lowerCaseForm.
  destruct (N.eqb_spec c 931); [contradiction|].
  destruct (c =? 304); [reflexivity|].
  now destruct (Unicode.simpleLowerCase c).
Qed.

Lemma lowerCaseForm_valid (cs : list N) :
  Forall (fun c => c < 1114112) cs ->
  Forall (fun c => c < 1114112) (List.flat_map lowerCaseForm cs).
Proof.
  induction 1 as [|c cs Hc _ IH]; [constructor|].
  cbn [List.flat_map]. apply Forall_app. split; [|exact IH].
  unfold lowerCaseForm. destruct (c =? 304); [repeat constructor; lia|].
  destruct (Unicode.simpleLowerCase c) as [c'|] eqn:Hl; repeat constructor; [|exact Hc].
  now destruct (lowerCase_forms c c' Hl).
Qed.

Lemma hyphenate_valid (cs : list N) :
  Forall (fun c => c < 1114112) cs ->
  Forall (fun c => c < 1114112) (List.map hyphenate cs).
Proof.
  induction 1 as [|c cs Hc _ IH]; [constructor|].
  cbn [List.map]. constructor; [|exact IH].
  unfold hyphenate. destruct (Unicode.isWhiteSpace c); [lia|exact Hc].
Qed.

Lemma replaceItems_codePoints (cs : list N) :
  List.map (JsString.replaceItem "-") (List.map CodePoint cs)
  = List.map CodePoint (List.map hyphenate cs).
Proof.
  induction cs as [|c cs IH]; [reflexivity|]. cbn [List.map]. rewrite IH. f_equal.
  unfold JsString.replaceItem, hyphenate. cbn [holdsOf].
  now destruct (Unicode.isWhiteSpace c).
Qed.

(** On code points without a capital sigma the normal form is made
    character by character. *)
Lemma normalize_codePoints (cs : list N) :
  Forall (fun c => c < 1114112 /\ c <> 931) cs ->
  normalizeIconPackName (JsString.ofCodePoints cs)
  = JsString.ofCodePoints (List.map hyphenate (List.flat_map lowerCaseForm cs)).
Proof.
  intros Hall.
  assert (Hv : Forall (fun c => c < 1114112) cs)
    by (eapply Forall_impl; [exact Hall|]; now intros c [Hc _]).
  assert (Hs : Forall (fun c => c <> 931) cs)
    by (eapply Forall_impl; [exact Hall|]; now intros c [_ Hc]).
  unfold normalizeIconPackName, JsString.toLowerCase, JsString.replaceWhiteSpace.
  rewrite (decode_ofCodePoints cs Hv), (lowerItems_codePoints cs [] Hs).
  fold (JsString.ofCodePoints (List.flat_map lowerCaseForm cs)).
  rewrite (decode_ofCodePoints _ (lowerCaseForm_valid cs Hv)), replaceItems_codePoints.
  reflexivity.
Qed.

End CodePointFacts.

(** C7 (amended): [normalizeIconPackName] lower-cases its input and
    replaces every white-space character by a hyphen.  It maps "My Pack"
    to "my-pack"; on ASCII text it is exactly: A-Z to a-z, white space to
    hyphen, every other character kept; on any text without a capital
    sigma it works character by character, each character giving its
    lower-case form, or a hyphen for white space; a capital sigma takes
    the form its neighbours call for, as in U+0391 U+03A3 SPACE U+03A3
    U+0391, which gives U+03B1 U+03C2 "-" U+03C3 U+03B1; each of the
    white-space characters of [\s], alone, becomes "-".  A name that holds no white space and no
    character with another lower-case form is returned unchanged, and the
    normal form of a name is such a name, so that normalizing twice is
    normalizing once. *)
Theorem normalizeIconPackName_spec :
  normalizeIconPackName "My Pack" = "my-pack"
  /\ (forall value, isAscii value = true ->
                    normalizeIconPackName value = JsString.map asciiNormalize value)
  /\ (forall cs, Forall (fun c => c < 1114112 /\ c <> 931)%N cs ->
                 normalizeIconPackName (JsString.ofCodePoints cs)
                 = JsString.ofCodePoints (List.map hyphenate (List.flat_map lowerCaseForm cs)))
  /\ (normalizeIconPackName (JsString.ofCodePoints [913; 931; 32; 931; 913]%N)
      = JsString.ofCodePoints [945; 962; 45; 963; 945]%N)
  /\ Forall (fun c => normalizeIconPackName (JsString.ofCodePoints [c]) = "-")
            Unicode.whiteSpace
  /\ (forall value,
        hasLowerCasedCharacter value = false -> hasWhiteSpace value = false ->
        normalizeIconPackName value = value)
  /\ (forall value,
        wellFormed value = true ->
        wellFormed (normalizeIconPackName value) = true
        /\ hasWhiteSpace (normalizeIconPackName value) = false
        /\ hasLowerCasedCharacter (normalizeIconPackName value) = false
        /\ normalizeIconPackName (normalizeIconPackName value)
           = normalizeIconPackName value).
Proof.
  split; [vm_compute; reflexivity|]. split; [exact normalize_ascii|].
  split; [exact normalize_codePoints|]. split; [vm_compute; reflexivity|].
  split; [exact whiteSpace_to_hyphen|]. split; [exact normalize_fixed|].
  exact normalize_settles.
Qed.

Lemma normalizeIconPackName_spec_witness :
  normalizeIconPackName "Icon Pack" = JsString.map asciiNormalize "Icon Pack"
  /\ normalizeIconPackName (JsString.ofCodePoints [201; 8195; 453]%N)
     = JsString.ofCodePoints (List.map hyphenate (List.flat_map lowerCaseForm [201; 8195; 453]%N))
  /\ normalizeIconPackName "my-pack" = "my-pack"
  /\ normalizeIconPackName (normalizeIconPackName "My Pack") = normalizeIconPackName "My Pack".
Proof.
  split; [|split; [|split]].
  - apply (proj1 (proj2 normalizeIconPackName_spec) "Icon Pack"). reflexivity.
  - apply (proj1 (proj2 (proj2 normalizeIconPackName_spec)) [201; 8195; 453]%N).
    repeat constructor; (reflexivity || discriminate).
  - apply (proj1 (proj2 (proj2 (proj2 (proj2 (proj2 normalizeIconPackName_spec))))) "my-pack");
      vm_compute; reflexivity.
  - apply (proj2 (proj2 (proj2 (proj2 (proj2 (proj2 normalizeIconPackName_spec))))) "My Pack").
    vm_compute; reflexivity.
Defined.

(** C7 as stated fails: U+01C5, a title-case letter, is a name with no
    upper-case letter and no white space, and it is not returned
    unchanged but turned into U+01C6. *)
Lemma titlecase_letter_is_lowered :
  hasUpperCaseLetter (JsString.ofCodePoints [453%N]) = false
  /\ hasWhiteSpace (JsString.ofCodePoints [453%N]) = false
  /\ normalizeIconPackName (JsString.ofCodePoints [453%N]) = JsString.ofCodePoints [454%N]
  /\ normalizeIconPackName (JsString.ofCodePoints [453%N]) <> JsString.ofCodePoints [453%N].
Proof.
  split; [vm_compute; reflexivity|]. split; [vm_compute; reflexivity|].
  split; [vm_compute; reflexivity|]. vm_compute. discriminate.
Qed.

(** * Facts about the handlers *)

Section HandlerFacts.

Context {World : Type} `{IconPackManager World}.

Lemma length_zero_empty (s : string) : (String.length s =? 0)%nat = true <-> s = "".
Proof. destruct s; cbn; split; intros E; congruence. Qed.

Lemma trace_bind {A B : Type} (m : Async World A) (k : A -> Async World B) (h : Host World) :
  trace (bind m k h) = (trace (m h) ++ trace (k (fst (fst (m h))) (after (m h))))%list.
Proof.
  unfold bind, trace, after. destruct (m h) as [[a h1] t1]. cbn.
  destruct (k a h1) as [[b h2] t2]. reflexivity.
Qed.

Lemma after_bind {A B : Type} (m : Async World A) (k : A -> Async World B) (h : Host World) :
  after (bind m k h) = after (k (fst (fst (m h))) (after (m h))).
Proof.
  unfold bind, after. destruct (m h) as [[a h1] t1]. cbn.
  destruct (k a h1) as [[b h2] t2]. reflexivity.
Qed.

Lemma value_bind {A B : Type} (m : Async World A) (k : A -> Async World B) (h : Host World) :
  fst (fst (bind m k h)) = fst (fst (k (fst (fst (m h))) (after (m h)))).
Proof.
  unfold bind, after. destruct (m h) as [[a h1] t1]. cbn.
  destruct (k a h1) as [[b h2] t2]. reflexivity.
Qed.

(** One turn of the drop loop on a file that is not an SVG. *)
Lemma drop_body_rejects (iconPack : string) (file : File.t) (successful : bool) (h : Host World) :
  isSvg file = false ->
  drop_body iconPack file successful h = (successful, h, [NewNotice (rejection file)]).
Proof. unfold drop_body, isSvg. intros ->. reflexivity. Qed.

(** One turn of the drop loop on an SVG. *)
Lemma drop_body_accepts (iconPack : string) (file : File.t) (successful : bool) (h : Host World) :
  isSvg file = true ->
  exists content total h',
    drop_body iconPack file successful h =
      (true, h',
       [ReadFileSync file;
        CreateFile iconPack (File.name file) content;
        AddIconToIconPack iconPack (File.name file) content;
        SetDesc ("Total icons: " ++ JsString.ofNat total
                 ++ " (added: " ++ File.name file ++ ")")])
    /\ textComponent h' = textComponent h.
Proof.
  unfold drop_body, isSvg. intros ->. cbn [negb].
  unfold bind, readFileSync, createFile, addIconToIconPack, iconsLength, setDesc, onWorld, ret.
  destruct (ext_readFileSync file (world h)) as [content w1]. cbn.
  eexists content, _, _. split; reflexivity.
Qed.

Lemma drop_loop (iconPack : string) (files : list File.t) :
  forall (successful : bool) (h : Host World),
    let r := forLoop files (drop_body iconPack) successful h in
    createdFiles (trace r) = entryOf iconPack <$> List.filter isSvg files
    /\ registeredIcons (trace r) = entryOf iconPack <$> List.filter isSvg files
    /\ filesRead (trace r) = List.filter isSvg files
    /\ notices (trace r) = rejection <$> List.filter (fun f => negb (isSvg f)) files
    /\ fst (fst r) = successful || List.existsb isSvg files
    /\ textComponent (after r) = textComponent h.
Proof.
  induction files as [|file rest IH]; intros successful h r.
  - subst r. cbn. rewrite orb_false_r. repeat split; reflexivity.
  - subst r. cbn [forLoop]. rewrite trace_bind, after_bind, value_bind.
    unfold createdFiles, registeredIcons, filesRead, notices in *.
    rewrite !omap_app. cbn [List.filter List.existsb].
    destruct (isSvg file) eqn:Hsvg.
    + destruct (drop_body_accepts iconPack file successful h Hsvg)
        as (content & total & h' & -> & Htext).
      cbn [trace after fst snd negb omap fmap list_fmap].
      destruct (IH true h') as (Hc & Hr & Hf & Hn & Hs & Ht).
      rewrite Hc, Hr, Hf, Hn, Hs, Ht, Htext.
      rewrite orb_true_r. repeat split; reflexivity.
    + rewrite (drop_body_rejects iconPack file successful h Hsvg).
      cbn [trace after fst snd negb omap fmap list_fmap].
      destruct (IH successful h) as (Hc & Hr & Hf & Hn & Hs & Ht).
      rewrite Hc, Hr, Hf, Hn, Hs, Ht.
      repeat split; reflexivity.
Qed.

Lemma onDrop_trace (iconPack : string) (files : list File.t) (h : Host World) :
  let r := onDrop iconPack files h in
  createdFiles (trace r) = entryOf iconPack <$> List.filter isSvg files
  /\ registeredIcons (trace r) = entryOf iconPack <$> List.filter isSvg files
  /\ filesRead (trace r) = List.filter isSvg files
  /\ notices (trace r) =
       ((rejection <$> List.filter (fun f => negb (isSvg f)) files)
        ++ (if List.existsb isSvg files then ["Icons successfully added."] else []))%list.
Proof.
  intros r. subst r. unfold onDrop. rewrite trace_bind.
  destruct (drop_loop iconPack files false h) as (Hc & Hr & Hf & Hn & Hs & _).
  unfold createdFiles, registeredIcons, filesRead, notices in *.
  rewrite !omap_app, Hc, Hr, Hf, Hn, Hs. cbn [orb].
  destruct (List.existsb isSvg files); cbn; rewrite ?app_nil_r; repeat split; reflexivity.
Qed.

Lemma split_not_empty (sep : ascii) (s : string) : JsString.split sep s <> [].
Proof.
  induction s as [|c s IH]; cbn; [discriminate|].
  destruct (Ascii.eqb c sep); [discriminate|].
  destruct (JsString.split sep s); discriminate.
Qed.

(** [pop] after [split] is never [undefined]. *)
Lemma lastSegment_defined (fileName : string) :
  JsString.pop (JsString.split "/" fileName) = Some (lastSegment fileName).
Proof.
  unfold lastSegment, JsString.pop.
  destruct (last (JsString.split "/" fileName)) as [seg|] eqn:E; [reflexivity|].
  apply last_None in E. now apply split_not_empty in E.
Qed.

Lemma plain_text_not_svg (file : File.t) : isPlainText file = true -> isSvg file = false.
Proof.
  unfold isPlainText, isSvg. intros E. apply String.eqb_eq in E. rewrite E. reflexivity.
Qed.

End HandlerFacts.

Section HandlerClaims.

Context {World : Type} `{IconPackManager World}.

Lemma onchange_body_run (iconPack : string) (file : File.t) (h : Host World) :
  exists content h',
    onchange_body iconPack file tt h =
      (tt, h', [ReadFileSync file;
                CreateFile iconPack (File.name file) content;
                AddIconToIconPack iconPack (File.name file) content])
    /\ textComponent h' = textComponent h.
Proof.
  unfold onchange_body, bind, readFileSync, createFile, addIconToIconPack, onWorld.
  destruct (ext_readFileSync file (world h)) as [content w1]. cbn.
  eexists content, _. split; reflexivity.
Qed.


(** C2: a drop of three files, one of type text/plain and two of type
    image/svg+xml, stores and registers exactly the two SVG files (one
    [createFile] and one [addIconToIconPack] each, in drop order) and
    shows exactly two notices: the "not a SVG file" notice of the one
    rejected file and, at the end, one "Icons successfully added.". *)
Theorem drop_three_files_one_plain_text
    (iconPack : string) (files : list File.t) (h : Host World) :
  length files = 3 ->
  length (List.filter isPlainText files) = 1 ->
  length (List.filter isSvg files) = 2 ->
  let t := trace (onDrop iconPack files h) in
  exists rejected,
    rejected ∈ files
    /\ isPlainText rejected = true
    /\ createdFiles t = entryOf iconPack <$> List.filter isSvg files
    /\ registeredIcons t = entryOf iconPack <$> List.filter isSvg files
    /\ length (createdFiles t) = 2
    /\ length (registeredIcons t) = 2
    /\ notices t = [rejection rejected; "Icons successfully added."].
Proof.
  intros Hlen Hplain Hsvg t.
  destruct (onDrop_trace iconPack files h) as (Hc & Hr & _ & Hn).
  fold t in Hc, Hr, Hn. rewrite Hc, Hr, Hn, !length_fmap, Hsvg. clear Hc Hr Hn t.
  destruct files as [|f1 [|f2 [|f3 [|]]]]; try discriminate. clear Hlen.
  cbn [List.filter List.existsb] in *.
  destruct (isPlainText f1) eqn:P1; [rewrite (plain_text_not_svg _ P1) in *|];
  destruct (isPlainText f2) eqn:P2; [rewrite (plain_text_not_svg _ P2) in *| |rewrite (plain_text_not_svg _ P2) in *|];
  destruct (isPlainText f3) eqn:P3;
    try rewrite (plain_text_not_svg _ P3) in *; try discriminate;
    repeat match goal with
           | Hs : context [isSvg ?f] |- _ => destruct (isSvg f); try discriminate
           end;
    cbn [negb orb fmap list_fmap app].
  all: first
    [ solve [exists f1; repeat split; try reflexivity; try assumption;
             apply list_elem_of_In; cbn; tauto]
    | solve [exists f2; repeat split; try reflexivity; try assumption;
             apply list_elem_of_In; cbn; tauto]
    | solve [exists f3; repeat split; try reflexivity; try assumption;
             apply list_elem_of_In; cbn; tauto] ].
Qed.

(** C10: a drop with an empty file list does nothing at all: no file is
    read, stored or registered, the description and the rest of the
    host stay as they were, and no notice is shown. *)
Theorem drop_no_files (iconPack : string) (h : Host World) :
  onDrop iconPack [] h = (tt, h, []).
Proof. reflexivity. Qed.


(** C8: when the directory listing is ["/packs/foo/a.svg";
    "/packs/foo/b.svg"], a refresh registers exactly the icon names
    "a.svg" and "b.svg", in that order, and the description it leaves,
    set by its last call, is "2 icons". *)
Theorem refresh_two_files (iconPack : string) (h : Host World) :
  fst (ext_getFilesInIconPackDirectory iconPack (world h))
    = ["/packs/foo/a.svg"; "/packs/foo/b.svg"] ->
  let r := refresh_onClick iconPack h in
  registeredIcons (trace r) = [(iconPack, "a.svg"); (iconPack, "b.svg")]
  /\ description (after r) = "2 icons"
  /\ descriptions (trace r) = ["Loading icons..."; "2 icons"]
  /\ last (trace r) = Some (SetDesc "2 icons").
Proof.
  intros Hfiles r. subst r.
  unfold refresh_onClick, bind, setDesc, getFilesInIconPackDirectory, onWorld.
  cbn [world].
  destruct (ext_getFilesInIconPackDirectory iconPack (world h)) as [files w1].
  cbn [fst] in Hfiles. subst files.
  cbn [forLoop]. unfold refresh_body, bind, vaultRead, addIconToIconPack, onWorld.
  cbn [world].
  destruct (ext_vaultRead "/packs/foo/a.svg" w1) as [svgA w2].
  destruct (ext_vaultRead "/packs/foo/b.svg" _) as [svgB w3].
  repeat split; reflexivity.
Qed.

(** C5: a submit with an empty input returns at once, with no call and
    no notice; a submit whose normalized name already exists asks only
    [doesIconPackExist], shows "Icon pack already exists." and stops: no
    directory is created, no success notice is shown and the input keeps
    its text. *)
Theorem addIconPack_rejected (h : Host World) :
  (textComponent h = "" -> addIconPack_onClick h = (tt, h, []))
  /\ (textComponent h <> "" ->
      fst (ext_doesIconPackExist (normalizeIconPackName (textComponent h)) (world h)) = true ->
      let r := addIconPack_onClick h in
      trace r = [DoesIconPackExist (normalizeIconPackName (textComponent h));
                 NewNotice "Icon pack already exists."]
      /\ createdDirectories (trace r) = []
      /\ notices (trace r) = ["Icon pack already exists."]
      /\ textComponent (after r) = textComponent h
      /\ description (after r) = description h).
Proof.
  split.
  - intros E. unfold addIconPack_onClick, bind, getValue. rewrite E. reflexivity.
  - intros Hne Hfound r. subst r.
    unfold addIconPack_onClick, bind, getValue.
    destruct (String.length (textComponent h) =? 0)%nat eqn:E.
    { apply length_zero_empty in E. contradiction. }
    unfold doesIconPackExist, onWorld.
    destruct (ext_doesIconPackExist _ (world h)) as [found w1].
    cbn [fst] in Hfound. subst found. repeat split; reflexivity.
Qed.

(** C6: a submit with a non-empty name whose normalized form does not
    exist yet makes, in this order, the [doesIconPackExist] query, the
    [createCustomIconPackDirectory] call with the normalized name, the
    reset of the input to the empty string, one [refreshDisplay] and the
    success notice naming the original and the normalized name. *)
Theorem addIconPack_created (h : Host World) :
  textComponent h <> "" ->
  fst (ext_doesIconPackExist (normalizeIconPackName (textComponent h)) (world h)) = false ->
  let name := textComponent h in
  let normalizedName := normalizeIconPackName name in
  let r := addIconPack_onClick h in
  trace r = [DoesIconPackExist normalizedName;
             CreateCustomIconPackDirectory normalizedName;
             SetValue "";
             RefreshDisplay;
             NewNotice ("Icon pack " ++ name ++ " (" ++ normalizedName ++ ") created.")]
  /\ textComponent (after r) = ""
  /\ world (after r) =
       ext_createCustomIconPackDirectory normalizedName
         (snd (ext_doesIconPackExist normalizedName (world h))).
Proof.
  intros Hne Hfound name normalizedName r. subst r name normalizedName.
  unfold addIconPack_onClick, bind, getValue.
  destruct (String.length (textComponent h) =? 0)%nat eqn:E.
  { apply length_zero_empty in E. contradiction. }
  unfold doesIconPackExist, createCustomIconPackDirectory, onWorld.
  destruct (ext_doesIconPackExist _ (world h)) as [found w1].
  cbn [fst] in Hfound. subst found. repeat split; reflexivity.
Qed.

End HandlerClaims.

Lemma drop_three_files_one_plain_text_witness :
  exists rejected,
    rejected ∈ [aSvg; notes; bSvg]
    /\ isPlainText rejected = true
    /\ createdFiles (trace (onDrop "foo" [aSvg; notes; bSvg] (InMemory.start "")))
         = entryOf "foo" <$> List.filter isSvg [aSvg; notes; bSvg]
    /\ registeredIcons (trace (onDrop "foo" [aSvg; notes; bSvg] (InMemory.start "")))
         = entryOf "foo" <$> List.filter isSvg [aSvg; notes; bSvg]
    /\ length (createdFiles (trace (onDrop "foo" [aSvg; notes; bSvg] (InMemory.start "")))) = 2
    /\ length (registeredIcons (trace (onDrop "foo" [aSvg; notes; bSvg] (InMemory.start "")))) = 2
    /\ notices (trace (onDrop "foo" [aSvg; notes; bSvg] (InMemory.start "")))
         = [rejection rejected; "Icons successfully added."].
Proof.
  apply (drop_three_files_one_plain_text "foo" [aSvg; notes; bSvg] (InMemory.start ""));
    reflexivity.
Defined.

Lemma refresh_two_files_witness :
  registeredIcons (trace (refresh_onClick "foo" (InMemory.start "")))
    = [("foo", "a.svg"); ("foo", "b.svg")]
  /\ description (after (refresh_onClick "foo" (InMemory.start ""))) = "2 icons"
  /\ descriptions (trace (refresh_onClick "foo" (InMemory.start "")))
       = ["Loading icons..."; "2 icons"]
  /\ last (trace (refresh_onClick "foo" (InMemory.start ""))) = Some (SetDesc "2 icons").
Proof.
  apply (refresh_two_files "foo" (InMemory.start "")). reflexivity.
Defined.

Lemma addIconPack_rejected_witness :
  addIconPack_onClick (InMemory.start "") = (tt, InMemory.start "", [])
  /\ trace (addIconPack_onClick (InMemory.start "FOO"))
       = [DoesIconPackExist "foo"; NewNotice "Icon pack already exists."].
Proof.
  split.
  - apply (proj1 (addIconPack_rejected (InMemory.start ""))). reflexivity.
  - apply (proj2 (addIconPack_rejected (InMemory.start "FOO"))).
    + discriminate.
    + reflexivity.
Defined.

Lemma addIconPack_created_witness :
  trace (addIconPack_onClick (InMemory.start "My Pack"))
    = [DoesIconPackExist "my-pack";
       CreateCustomIconPackDirectory "my-pack";
       SetValue "";
       RefreshDisplay;
       NewNotice "Icon pack My Pack (my-pack) created."]
  /\ textComponent (after (addIconPack_onClick (InMemory.start "My Pack"))) = "".
Proof.
  destruct (addIconPack_created (InMemory.start "My Pack")) as (Ht & Hv & _).
  - discriminate.
  - reflexivity.
  - split; [exact Ht | exact Hv].
Defined.

(** * Facts about the DOM model *)

Section DomFacts.
Import Dom.

Implicit Types (doc : gmap nat Element) (el parent : nat) (node : Node).

Lemma element_insert doc parent el (e : Element) :
  element (<[parent := e]> doc) el = if decide (parent = el) then e else element doc el.
Proof. unfold element. rewrite lookup_insert. case_decide; reflexivity. Qed.

Lemma element_without doc el node :
  element (without node <$> doc) el = without node (element doc el).
Proof. unfold element. rewrite lookup_fmap. destruct (doc !! el); reflexivity. Qed.

Lemma not_in_without node (e : Element) : node ∉ childNodes (without node e).
Proof. cbn. rewrite list_elem_of_filter. intros [Hne _]. now apply Hne. Qed.

Lemma holds_appendChild doc parent el node :
  holds (appendChild parent node doc) el node <-> el = parent.
Proof.
  unfold holds, appendChild. rewrite element_insert. case_decide as Hd.
  - subst. cbn. rewrite elem_of_app, list_elem_of_singleton. tauto.
  - rewrite element_without. split; [|congruence].
    intros Hin. now apply not_in_without in Hin.
Qed.

Lemma holds_classList_add doc parent el node token :
  holds (classList_add parent token doc) el node <-> holds doc el node.
Proof.
  unfold holds, classList_add. case_decide; [reflexivity|].
  rewrite element_insert. case_decide; subst; reflexivity.
Qed.

Lemma hasClass_classList_add doc el token :
  hasClass (classList_add el token doc) el token.
Proof.
  unfold hasClass, classList_add.
  destruct (decide (token ∈ classList (element doc el))) as [Hin|Hin]; [exact Hin|].
  rewrite element_insert. destruct (decide (el = el)); [|congruence].
  cbn. rewrite elem_of_app, list_elem_of_singleton. tauto.
Qed.

Lemma holds_classList_remove doc parent el node token :
  holds (classList_remove parent token doc) el node <-> holds doc el node.
Proof.
  unfold holds, classList_remove. rewrite element_insert.
  case_decide; subst; reflexivity.
Qed.

Lemma hasClass_classList_remove doc el token :
  ~ hasClass (classList_remove el token doc) el token.
Proof.
  unfold hasClass, classList_remove. rewrite element_insert.
  case_decide; [|congruence]. cbn. rewrite list_elem_of_filter. tauto.
Qed.

Lemma removeChild_held doc parent node :
  holds doc parent node ->
  removeChild parent node doc = Normal (<[parent := without node (element doc parent)]> doc).
Proof. unfold holds, removeChild. intros Hin. case_decide; [reflexivity|contradiction]. Qed.

Lemma holds_after_removeChild doc parent el node :
  holds (<[parent := without node (element doc parent)]> doc) el node
  <-> holds doc el node /\ el <> parent.
Proof.
  unfold holds. rewrite element_insert. case_decide as Hd.
  - subst. split; [|tauto]. intros Hin. now apply not_in_without in Hin.
  - split; [intros Hin; split; [assumption|congruence] | tauto].
Qed.

End DomFacts.

(** * Facts about the drag highlight *)

Section DragFacts.
Import Dom Drag.

Lemma Inv_constructor (doc : gmap nat Element) :
  detached doc dragOverElement -> Inv (constructor doc).
Proof.
  intros Hdet. repeat split; cbn; try discriminate.
  intros Hh. now apply Hdet in Hh.
Qed.

Lemma Inv_highlight (el : nat) (s : State) : Inv s -> Inv (highlight el s).
Proof.
  intros (Hown & Hcls & Htim). unfold highlight. cbn.
  destruct (dragTargetElement s) as [owner|] eqn:Eo.
  - repeat split; cbn; try discriminate; rewrite ?Eo; try apply Hown; auto.
  - repeat split; cbn; try discriminate.
    + rewrite holds_classList_add, holds_appendChild. congruence.
    + rewrite holds_classList_add, holds_appendChild. congruence.
    + intros el' [= <-]. apply hasClass_classList_add.
Qed.

(** Releasing the owner succeeds and leaves nobody highlighted. *)
Lemma release_owner (s : State) (owner : nat) :
  Inv s -> dragTargetElement s = Some owner ->
  exists s',
    release owner s = Normal s'
    /\ Inv s'
    /\ dragTargetElement s' = None
    /\ closeTimer s' = closeTimer s
    /\ clock s' = clock s
    /\ ~ holds (document s') owner dragOverElement
    /\ ~ hasClass (document s') owner "iconize-dragover".
Proof.
  intros (Hown & Hcls & Htim) Eo. unfold release.
  rewrite removeChild_held by now apply Hown.
  eexists. split; [reflexivity|]. cbn.
  assert (Hgone : forall el,
             ~ holds (classList_remove owner "iconize-dragover"
                        (<[owner := without dragOverElement (element (document s) owner)]>
                           (document s)))
                     el dragOverElement).
  { intros el. rewrite holds_classList_remove, holds_after_removeChild, Hown, Eo.
    intros [[= ->] Hne]. now apply Hne. }
  repeat split; cbn; try discriminate; auto.
  - intros Hh. now apply Hgone in Hh.
  - apply hasClass_classList_remove.
Qed.

Lemma Inv_unhighlight (row : nat) (s : State) :
  Inv s -> exists s', unhighlight row row s = Normal s' /\ Inv s'.
Proof.
  intros HI. unfold unhighlight.
  destruct (dragTargetElement s) as [owner|] eqn:Eo.
  - case_decide as Hd.
    + destruct (release_owner s owner HI Eo) as (s' & -> & (Hown & Hcls & _) & Eo' & _).
      eexists. split; [reflexivity|].
      repeat split; cbn; try apply Hown; try apply Hcls; auto.
    + assert (owner = row) as -> by (destruct (decide (owner = row)); tauto).
      destruct HI as (Hown & Hcls & _).
      eexists. split; [reflexivity|].
      repeat split; cbn; try apply Hown; try apply Hcls.
      intros due el [= _ <-]. now right.
  - destruct HI as (Hown & Hcls & _).
    eexists. split; [reflexivity|].
    repeat split; cbn; try apply Hown; try apply Hcls.
    intros due el _. now left.
Qed.

Lemma Inv_runTimers (s : State) :
  Inv s -> exists s', runTimers s = Normal s' /\ Inv s'.
Proof.
  intros HI. unfold runTimers.
  destruct (closeTimer s) as [[due el]|] eqn:Et; [|eauto].
  destruct (due <=? clock s)%nat; [|eauto].
  assert (HI0 : Inv (mkState (document s) None (dragTargetElement s) (clock s))).
  { destruct HI as (Hown & Hcls & _). repeat split; cbn; try apply Hown; try apply Hcls.
    discriminate. }
  unfold closeTimerCallback. cbn [dragTargetElement].
  destruct (dragTargetElement s) as [owner|] eqn:Eo; [|eauto].
  destruct HI as (_ & _ & Htim).
  assert (owner = el) as -> by (destruct (Htim due el Et); congruence).
  destruct (release_owner _ el HI0 eq_refl) as (s' & Hr & HI' & _).
  eauto.
Qed.

Lemma Inv_step (e : Event) (s : State) :
  Inv s -> exists s', step e s = Normal s' /\ Inv s'.
Proof.
  intros HI. destruct e as [[] row|ms|]; cbn [step dispatch].
  - eexists. split; [reflexivity|]. now apply Inv_highlight.
  - eexists. split; [reflexivity|]. now apply Inv_highlight.
  - now apply Inv_unhighlight.
  - now apply Inv_unhighlight.
  - eexists. split; [reflexivity|]. exact HI.
  - now apply Inv_runTimers.
Qed.

Lemma Inv_run (es : list Event) :
  forall s, Inv s -> exists s', run es s = Normal s' /\ Inv s'.
Proof.
  induction es as [|e es IH]; intros s HI; cbn [run]; [eauto|].
  destruct (Inv_step e s HI) as (s1 & -> & HI1). now apply IH.
Qed.

(** While the timer callback does not run, because the timer is not due
    yet or because the event loop does not get to it, time-only events
    change nothing but the clock. *)
Lemma run_idle (es : list Event) :
  forall s,
    Forall (fun e => isIdle e = true) es ->
    Forall (fun e => isElapse e = true) es
    \/ (forall due el, closeTimer s = Some (due, el) -> clock s + totalElapsed es < due) ->
    run es s = Normal (later (totalElapsed es) s).
Proof.
  induction es as [|e es IH]; intros s Hidle Hquiet.
  - cbn. unfold later. rewrite Nat.add_0_r. now destruct s.
  - apply Forall_cons in Hidle as [He Hes].
    unfold totalElapsed in *. cbn [fmap list_fmap sum_list] in *. unfold id in *.
    destruct e as [ev row|ms|]; [discriminate| |]; cbn [run step elapsed] in *.
    + rewrite IH; [|assumption|].
      * unfold later. cbn. now rewrite Nat.add_assoc.
      * destruct Hquiet as [Hel|Hearly].
        -- left. now apply Forall_cons in Hel as [_ Hel].
        -- right. cbn. intros due el Et. specialize (Hearly due el Et). lia.
    + destruct Hquiet as [Hel|Hearly].
      { apply Forall_cons in Hel as [Hel _]. discriminate. }
      assert (runTimers s = Normal s) as ->.
      { unfold runTimers. destruct (closeTimer s) as [[due el]|] eqn:Et; [|reflexivity].
        specialize (Hearly due el eq_refl).
        destruct (Nat.leb_spec due (clock s)); [lia|reflexivity]. }
      apply IH; [assumption|now right].
Qed.

End DragFacts.

Section DragClaims.
Import Dom Drag.

Lemma detached_empty (node : Node) : detached ∅ node.
Proof.
  intros el Hh. unfold holds, element in Hh. rewrite lookup_empty in Hh.
  cbn in Hh. now apply elem_of_nil in Hh.
Qed.

Lemma run_app (es1 es2 : list Event) :
  forall s s1, run es1 s = Normal s1 -> run (es1 ++ es2) s = run es2 s1.
Proof.
  induction es1 as [|e es1 IH]; intros s s1 Hrun; cbn [run app] in *.
  - now injection Hrun as ->.
  - destruct (step e s) as [s'|err]; [now apply IH|discriminate].
Qed.

(** A release, when it succeeds, leaves no owner. *)
Lemma release_clears (el : nat) (s s' : State) :
  release el s = Normal s' -> dragTargetElement s' = None.
Proof.
  unfold release. destruct (removeChild _ _ _); [|discriminate].
  now intros [= <-].
Qed.

(** Only [highlight], called while nobody owns the overlay, makes an
    element the owner. *)
Lemma owner_only_from_none (e : Event) (s s' : State) (row : nat) :
  step e s = Normal s' ->
  dragTargetElement s' = Some row ->
  dragTargetElement s <> Some row ->
  dragTargetElement s = None
  /\ (e = Deliver dragenter row \/ e = Deliver dragover row).
Proof.
  intros Hstep Hnew Hold.
  assert (Hhl : forall r, dragTargetElement (highlight r s) = Some row ->
                          dragTargetElement s = None /\ r = row).
  { intros r. unfold highlight. cbn.
    destruct (dragTargetElement s) as [owner|] eqn:Eo; cbn.
    - rewrite Eo. intros E. congruence.
    - intros [= ->]. now split. }
  assert (Hun : forall r, unhighlight r r s = Normal s' -> False).
  { intros r. unfold unhighlight.
    destruct (dragTargetElement s) as [owner|] eqn:Eo.
    - case_decide.
      + destruct (release owner s) as [s1|err] eqn:Er; [|discriminate].
        apply release_clears in Er. intros [= <-]. cbn in Hnew. congruence.
      + intros [= <-]. cbn in Hnew. congruence.
    - intros [= <-]. cbn in Hnew. congruence. }
  destruct e as [[] r|ms|]; cbn [step dispatch] in Hstep.
  - injection Hstep as <-. destruct (Hhl r Hnew) as [Hn ->]. auto.
  - injection Hstep as <-. destruct (Hhl r Hnew) as [Hn ->]. auto.
  - now apply Hun in Hstep.
  - now apply Hun in Hstep.
  - injection Hstep as <-. cbn in Hnew. congruence.
  - unfold runTimers in Hstep.
    destruct (closeTimer s) as [[due el]|]; [|injection Hstep as <-; congruence].
    destruct (due <=? clock s)%nat; [|injection Hstep as <-; congruence].
    unfold closeTimerCallback in Hstep. cbn [dragTargetElement] in Hstep.
    destruct (dragTargetElement s) as [owner|] eqn:Eo.
    + apply release_clears in Hstep. congruence.
    + injection Hstep as <-. cbn in Hnew. congruence.
Qed.

Lemma highlight_owned (s : State) (owner el : nat) :
  dragTargetElement s = Some owner -> highlight el s = clearTimeout s.
Proof. intros Eo. unfold highlight. cbn. now rewrite Eo. Qed.

(** C1 (amended): a call [highlight rowB] made while [rowA] owns the
    overlay only clears the pending timer: document and owner stay as
    they are, so [rowA] keeps overlay, class and ownership and [rowB],
    if it is another element, is not highlighted.  An element becomes
    the owner only by a [dragenter] or [dragover] delivered to it while
    nobody owns the overlay. *)
Theorem highlight_keeps_current_owner (s : State) (rowA rowB : nat) :
  dragTargetElement s = Some rowA ->
  highlight rowB s = clearTimeout s
  /\ document (highlight rowB s) = document s
  /\ dragTargetElement (highlight rowB s) = Some rowA
  /\ closeTimer (highlight rowB s) = None
  /\ (highlighted s rowA -> highlighted (highlight rowB s) rowA)
  /\ (rowA <> rowB -> ~ highlighted (highlight rowB s) rowB)
  /\ (forall e s0 s',
        step e s0 = Normal s' ->
        dragTargetElement s' = Some rowB ->
        dragTargetElement s0 <> Some rowB ->
        dragTargetElement s0 = None
        /\ (e = Deliver dragenter rowB \/ e = Deliver dragover rowB)).
Proof.
  intros Eo. rewrite (highlight_owned s rowA rowB Eo). cbn.
  split; [reflexivity|]. split; [reflexivity|]. split; [exact Eo|].
  split; [reflexivity|]. split; [|split].
  - intros Hh. exact Hh.
  - intros Hne (_ & _ & Eo'). cbn in Eo'. congruence.
  - intros e s0 s' Hstep Hnew Hold. now apply (owner_only_from_none e s0 s' rowB).
Qed.

(** C3: whatever events are delivered to a panel built over a document
    in which the overlay is not attached, no call throws and at most one
    element holds the overlay afterwards.  Starting with no owner,
    [highlight rowA] then [highlight rowB] leaves the overlay attached to
    [rowA] and to no other element, after the first call as after the
    second; starting from any consistent state, the two calls never
    leave it attached to two elements. *)
Theorem overlay_held_by_at_most_one_row :
  (forall (doc : gmap nat Element) (es : list Event),
      detached doc dragOverElement ->
      exists s,
        run es (constructor doc) = Normal s
        /\ forall e1 e2,
             holds (document s) e1 dragOverElement ->
             holds (document s) e2 dragOverElement -> e1 = e2)
  /\ (forall (s : State) (rowA rowB : nat),
        dragTargetElement s = None ->
        (forall el, holds (document (highlight rowA s)) el dragOverElement <-> el = rowA)
        /\ (forall el, holds (document (highlight rowB (highlight rowA s))) el dragOverElement
                       <-> el = rowA)
        /\ dragTargetElement (highlight rowB (highlight rowA s)) = Some rowA)
  /\ (forall (s : State) (rowA rowB : nat),
        Inv s ->
        forall e1 e2,
          holds (document (highlight rowB (highlight rowA s))) e1 dragOverElement ->
          holds (document (highlight rowB (highlight rowA s))) e2 dragOverElement ->
          e1 = e2).
Proof.
  split; [|split].
  - intros doc es Hdet.
    destruct (Inv_run es (constructor doc) (Inv_constructor doc Hdet)) as (s & Hrun & Hown & _).
    exists s. split; [exact Hrun|].
    intros e1 e2 H1 H2. apply Hown in H1, H2. congruence.
  - intros s rowA rowB Eo.
    assert (E1 : forall el, holds (document (highlight rowA s)) el dragOverElement <-> el = rowA).
    { intros el. unfold highlight. cbn. rewrite Eo. cbn.
      now rewrite holds_classList_add, holds_appendChild. }
    assert (E2 : dragTargetElement (highlight rowA s) = Some rowA).
    { unfold highlight. cbn. now rewrite Eo. }
    rewrite (highlight_owned _ rowA rowB E2). cbn [clearTimeout document dragTargetElement].
    auto.
  - intros s rowA rowB HI e1 e2 H1 H2.
    destruct (Inv_highlight rowB _ (Inv_highlight rowA s HI)) as (Hown & _).
    apply Hown in H1, H2. congruence.
Qed.

(** Left alone, the release does happen: once the 100 ms are over the
    timer callback detaches the overlay and clears the owner. *)
Lemma release_after_100ms (s : State) (row : nat) :
  Inv s -> dragTargetElement s = Some row ->
  exists s',
    run [Deliver dragleave row; Elapse 100; RunTimers] s = Normal s'
    /\ dragTargetElement s' = None
    /\ ~ holds (document s') row dragOverElement
    /\ ~ hasClass (document s') row "iconize-dragover".
Proof.
  intros HI Eo. cbn [run step dispatch].
  assert (Hun : unhighlight row row s
                = Normal (setTimeout row 100 (clearTimeout s))).
  { unfold unhighlight. rewrite Eo. case_decide; [congruence|reflexivity]. }
  rewrite Hun. unfold runTimers. cbn.
  destruct (Nat.leb_spec (clock s + 100) (clock s + 100)) as [_|Hlt]; [|lia].
  unfold closeTimerCallback. cbn. rewrite Eo.
  assert (HI0 : Inv (mkState (document s) None (Some row) (clock s + 100))).
  { destruct HI as (Hown & Hcls & _). rewrite <- Eo.
    repeat split; cbn; try apply Hown; try apply Hcls. discriminate. }
  destruct (release_owner _ row HI0 eq_refl) as (s' & Hr & _ & Ho & _ & _ & Hh & Hc).
  rewrite Hr. exists s'. split; [reflexivity|]. auto.
Qed.

(** C4: when [row] owns the overlay, [unhighlight] on [row] arms the
    release for 100 ms later and touches nothing else; the callback does
    not run while less than 100 ms pass (nor later, as long as the event
    loop has not got to it); [highlight] on [row] then clears the timer,
    and from there on no passing of time releases the overlay: the
    document and the owner are, at every step, what they were before. *)
Theorem rehighlight_cancels_release
    (s : State) (row : nat) (idle more : list Event) :
  dragTargetElement s = Some row ->
  Forall (fun e => isIdle e = true) idle ->
  totalElapsed idle < 100 \/ Forall (fun e => isElapse e = true) idle ->
  Forall (fun e => isIdle e = true) more ->
  exists s1 s2 s3,
    unhighlight row row s = Normal s1
    /\ closeTimer s1 = Some (clock s + 100, row)
    /\ document s1 = document s /\ dragTargetElement s1 = Some row
    /\ run idle s1 = Normal s2
    /\ document s2 = document s /\ dragTargetElement s2 = Some row
    /\ closeTimer (highlight row s2) = None
    /\ document (highlight row s2) = document s
    /\ dragTargetElement (highlight row s2) = Some row
    /\ run more (highlight row s2) = Normal s3
    /\ document s3 = document s /\ dragTargetElement s3 = Some row
    /\ run (Deliver dragleave row :: idle ++ Deliver dragover row :: more) s = Normal s3.
Proof.
  intros Eo Hidle Hshort Hmore.
  set (s1 := setTimeout row 100 (clearTimeout s)).
  assert (Hun : unhighlight row row s = Normal s1).
  { unfold unhighlight. rewrite Eo. case_decide; [congruence|reflexivity]. }
  assert (Hrun1 : run idle s1 = Normal (later (totalElapsed idle) s1)).
  { apply run_idle; [assumption|]. destruct Hshort as [Hshort|Hel]; [right|now left].
    subst s1. cbn. intros due el [= <- _]. lia. }
  set (s2 := later (totalElapsed idle) s1) in *.
  assert (Eo2 : dragTargetElement s2 = Some row) by exact Eo.
  assert (Hhl : highlight row s2 = clearTimeout s2) by exact (highlight_owned s2 row row Eo2).
  assert (Hrun2 : run more (highlight row s2)
                  = Normal (later (totalElapsed more) (highlight row s2))).
  { apply run_idle; [assumption|]. right. rewrite Hhl. cbn. discriminate. }
  exists s1, s2, (later (totalElapsed more) (highlight row s2)).
  rewrite Hhl in *.
  repeat split; try assumption; try reflexivity.
  cbn [run step dispatch]. rewrite Hun.
  rewrite (run_app idle _ s1 s2 Hrun1). cbn [run step dispatch].
  rewrite Hhl. exact Hrun2.
Qed.

End DragClaims.

(** C1 as stated fails: with row 1 highlighted, [highlight 2] hands
    nothing over; row 1 still holds the overlay, has the class and is the
    owner, and row 2 is not highlighted. *)
Lemma highlight_second_row_hands_nothing_over :
  Drag.dragTargetElement Drag.onRow1 = Some 1
  /\ Drag.highlighted (Drag.highlight 2 Drag.onRow1) 1
  /\ ~ Drag.highlighted (Drag.highlight 2 Drag.onRow1) 2
  /\ ~ Drag.handsOver 1 2 Drag.onRow1.
Proof.
  assert (Hh : Dom.holds (Drag.document (Drag.highlight 2 Drag.onRow1)) 1 Drag.dragOverElement).
  { unfold Dom.holds. vm_compute. apply list_elem_of_singleton. reflexivity. }
  split; [reflexivity|]. split; [|split].
  - split; [exact Hh|]. split; [|reflexivity].
    unfold Dom.hasClass. vm_compute. apply list_elem_of_singleton. reflexivity.
  - intros (_ & _ & Eo). vm_compute in Eo. discriminate.
  - intros (Hno & _). exact (Hno Hh).
Qed.

Lemma highlight_keeps_current_owner_witness :
  Drag.highlight 2 Drag.onRow1 = Drag.clearTimeout Drag.onRow1
  /\ Drag.dragTargetElement (Drag.highlight 2 Drag.onRow1) = Some 1.
Proof.
  destruct (highlight_keeps_current_owner Drag.onRow1 1 2) as (E & _ & Eo & _).
  - reflexivity.
  - split; [exact E | exact Eo].
Defined.

Lemma overlay_held_by_at_most_one_row_witness :
  (exists s,
      Drag.run [Drag.Deliver Drag.dragenter 1; Drag.Deliver Drag.dragenter 2;
                Drag.Deliver Drag.dragleave 1; Drag.Elapse 100; Drag.RunTimers]
               (Drag.constructor ∅) = Dom.Normal s
      /\ forall e1 e2,
           Dom.holds (Drag.document s) e1 Drag.dragOverElement ->
           Dom.holds (Drag.document s) e2 Drag.dragOverElement -> e1 = e2)
  /\ Drag.dragTargetElement (Drag.highlight 2 (Drag.highlight 1 Drag.fresh)) = Some 1
  /\ (forall e1 e2,
        Dom.holds (Drag.document (Drag.highlight 2 (Drag.highlight 1 Drag.fresh))) e1
                  Drag.dragOverElement ->
        Dom.holds (Drag.document (Drag.highlight 2 (Drag.highlight 1 Drag.fresh))) e2
                  Drag.dragOverElement ->
        e1 = e2).
Proof.
  split; [|split].
  - apply (proj1 overlay_held_by_at_most_one_row ∅). apply detached_empty.
  - apply (proj1 (proj2 overlay_held_by_at_most_one_row) Drag.fresh 1 2). reflexivity.
  - apply (proj2 (proj2 overlay_held_by_at_most_one_row) Drag.fresh 1 2).
    apply Inv_constructor, detached_empty.
Defined.

Lemma rehighlight_cancels_release_witness :
  exists s3,
    Drag.run [Drag.Deliver Drag.dragleave 1; Drag.Elapse 60; Drag.RunTimers; Drag.Elapse 39;
              Drag.Deliver Drag.dragover 1; Drag.Elapse 500; Drag.RunTimers]
             Drag.onRow1 = Dom.Normal s3
    /\ Drag.document s3 = Drag.document Drag.onRow1
    /\ Drag.dragTargetElement s3 = Some 1.
Proof.
  destruct (rehighlight_cancels_release Drag.onRow1 1
              [Drag.Elapse 60; Drag.RunTimers; Drag.Elapse 39]
              [Drag.Elapse 500; Drag.RunTimers])
    as (s1 & s2 & s3 & H).
  - reflexivity.
  - repeat constructor.
  - left. vm_compute. lia.
  - repeat constructor.
  - exists s3. decompose [and] H. auto.
Defined.

(** * Further facts: paths and names *)

Section PathFacts.

Lemma append_assoc (a b c : string) : (a ++ b) ++ c = a ++ (b ++ c).
Proof.
  induction a as [|x a IH]; [reflexivity|].
  change (String x ((a ++ b) ++ c) = String x (a ++ (b ++ c))). now f_equal.
Qed.

Lemma append_cons (x : ascii) (a b : string) : String x a ++ b = String x (a ++ b).
Proof. reflexivity. Qed.

Lemma concat_cons_nonempty (sep x : string) (xs : list string) :
  xs <> [] -> String.concat sep (x :: xs) = x ++ sep ++ String.concat sep xs.
Proof. destruct xs; [congruence|reflexivity]. Qed.

Lemma split_cons_sep (sep : ascii) (s : string) :
  JsString.split sep (String sep s) = "" :: JsString.split sep s.
Proof. cbn. now rewrite Ascii.eqb_refl. Qed.

Lemma split_cons_other (sep c : ascii) (s : string) :
  c <> sep ->
  exists seg segs,
    JsString.split sep s = seg :: segs
    /\ JsString.split sep (String c s) = String c seg :: segs.
Proof.
  intros Hne. cbn. apply Ascii.eqb_neq in Hne. rewrite Hne.
  destruct (JsString.split sep s) as [|seg segs] eqn:E.
  - now apply split_not_empty in E.
  - eauto.
Qed.

Lemma split_join (sep : ascii) (s : string) :
  String.concat (String sep "") (JsString.split sep s) = s.
Proof.
  induction s as [|c s IH]; [reflexivity|].
  destruct (Ascii.eqb_spec c sep) as [->|Hne].
  - rewrite split_cons_sep, concat_cons_nonempty by apply split_not_empty.
    now rewrite IH.
  - destruct (split_cons_other sep c s Hne) as (seg & segs & E & ->).
    rewrite E in IH. destruct segs as [|seg' segs].
    + cbn [String.concat] in *. now rewrite IH.
    + rewrite concat_cons_nonempty in * by discriminate.
      rewrite append_cons. now rewrite IH.
Qed.

Lemma split_segments_free (sep : ascii) (s : string) :
  Forall (fun seg => freeOf sep seg = true) (JsString.split sep s).
Proof.
  induction s as [|c s IH]; [repeat constructor|].
  destruct (Ascii.eqb_spec c sep) as [->|Hne].
  - rewrite split_cons_sep. constructor; [reflexivity|assumption].
  - destruct (split_cons_other sep c s Hne) as (seg & segs & E & ->).
    rewrite E in IH. apply Forall_cons in IH as [Hseg Hsegs].
    constructor; [|assumption].
    unfold freeOf in *. cbn. apply Ascii.eqb_neq in Hne. now rewrite Hne, Hseg.
Qed.

Lemma split_free (sep : ascii) (s : string) :
  freeOf sep s = true -> JsString.split sep s = [s].
Proof.
  induction s as [|c s IH]; [reflexivity|].
  unfold freeOf. cbn [JsString.forallb]. intros Hf.
  apply andb_prop in Hf as [Hc Hs]. apply negb_true_iff in Hc.
  cbn. rewrite Hc. unfold freeOf in IH. now rewrite (IH Hs).
Qed.

Lemma split_app_sep (sep : ascii) (a b : string) :
  JsString.split sep (a ++ String sep b) = (JsString.split sep a ++ JsString.split sep b)%list.
Proof.
  induction a as [|c a IH].
  - change ("" ++ String sep b) with (String sep b). now rewrite split_cons_sep.
  - rewrite append_cons. destruct (Ascii.eqb_spec c sep) as [->|Hne].
    + rewrite !split_cons_sep, IH. reflexivity.
    + destruct (split_cons_other sep c a Hne) as (seg & segs & E & ->).
      destruct (split_cons_other sep c (a ++ String sep b) Hne) as (seg' & segs' & E' & ->).
      rewrite IH, E in E'. injection E' as <- <-. reflexivity.
Qed.

Lemma concat_snoc (sep : string) (init : list string) (l : string) :
  exists prefix, String.concat sep (init ++ [l]) = prefix ++ l.
Proof.
  induction init as [|x init [prefix IH]].
  - exists "". reflexivity.
  - exists (x ++ sep ++ prefix).
    change ((x :: init) ++ [l])%list with (x :: (init ++ [l]))%list.
    rewrite concat_cons_nonempty by (destruct init; discriminate).
    now rewrite IH, !append_assoc.
Qed.

End PathFacts.

(** X1: [split] and joining with the separator are inverse: the segments
    of a string, joined again, give the string back, and no segment
    contains the separator. *)
Theorem split_roundtrip (sep : ascii) (s : string) :
  String.concat (String sep "") (JsString.split sep s) = s
  /\ Forall (fun seg => freeOf sep seg = true) (JsString.split sep s)
  /\ JsString.split sep s <> [].
Proof.
  split; [apply split_join|]. split; [apply split_segments_free|apply split_not_empty].
Qed.

(** X2: the icon name the refresh derives from a path [dir/name] is
    [name], whatever the directory part, as long as [name] has no slash. *)
Theorem lastSegment_of_path (dir name : string) :
  freeOf "/" name = true ->
  lastSegment (dir ++ "/" ++ name) = name.
Proof.
  intros Hfree. unfold lastSegment, JsString.pop.
  change (dir ++ "/" ++ name) with (dir ++ String "/" name).
  rewrite split_app_sep, (split_free "/" name Hfree).
  now rewrite last_snoc.
Qed.

Lemma lastSegment_of_path_witness :
  lastSegment ("/packs/foo/sub" ++ "/" ++ "a.svg") = "a.svg".
Proof. apply (lastSegment_of_path "/packs/foo/sub" "a.svg"). reflexivity. Defined.

(** X3: the derived icon name is always the end of the path and never
    contains a slash; a path without a slash is its own icon name. *)
Theorem lastSegment_suffix (fileName : string) :
  (exists prefix, fileName = prefix ++ lastSegment fileName)
  /\ freeOf "/" (lastSegment fileName) = true
  /\ (freeOf "/" fileName = true -> lastSegment fileName = fileName).
Proof.
  pose proof (lastSegment_defined fileName) as Hpop. unfold JsString.pop in Hpop.
  apply last_Some in Hpop as [init Hsplit].
  split; [|split].
  - destruct (concat_snoc "/" init (lastSegment fileName)) as [prefix Hc].
    exists prefix. rewrite <- Hc, <- Hsplit. symmetry. apply split_join.
  - pose proof (split_segments_free "/" fileName) as Hall.
    rewrite Hsplit in Hall. apply Forall_app in Hall as [_ Hl].
    now apply Forall_cons in Hl as [Hl _].
  - intros Hfree. rewrite (split_free "/" fileName Hfree) in Hsplit.
    destruct init as [|x init]; cbn in Hsplit.
    + now injection Hsplit as <-.
    + injection Hsplit as _ Hnil. now destruct init.
Qed.

Lemma lastSegment_suffix_witness :
  lastSegment "a.svg" = "a.svg".
Proof. apply (proj2 (proj2 (lastSegment_suffix "a.svg"))). reflexivity. Defined.

(** * Further facts: the handlers on any input *)

Section MoreHandlerFacts.

Context {World : Type} `{IconPackManager World}.

(** The exact outcome of one turn of the drop loop on an SVG. *)
Lemma drop_body_accepts_exactly
    (iconPack : string) (file : File.t) (successful : bool) (h : Host World) :
  isSvg file = true ->
  let content := fst (ext_readFileSync file (world h)) in
  let w := ext_addIconToIconPack iconPack (File.name file) content
             (ext_createFile iconPack (File.name file) content
                (snd (ext_readFileSync file (world h)))) in
  drop_body iconPack file successful h =
    (true,
     mkHost w (textComponent h) (dropDescription (ext_iconsLength iconPack w) file),
     [ReadFileSync file;
      CreateFile iconPack (File.name file) content;
      AddIconToIconPack iconPack (File.name file) content;
      SetDesc (dropDescription (ext_iconsLength iconPack w) file)]).
Proof.
  unfold drop_body, isSvg. intros ->. cbn [negb].
  unfold bind, readFileSync, createFile, addIconToIconPack, iconsLength, setDesc, onWorld, ret.
  destruct (ext_readFileSync file (world h)) as [content w1]. reflexivity.
Qed.

Lemma drop_loop_entries (iconPack : string) (files : list File.t) :
  forall (successful : bool) (h : Host World),
    let r := forLoop files (drop_body iconPack) successful h in
    storedEntries (trace r) = registeredEntries (trace r).
Proof.
  induction files as [|file rest IH]; intros successful h r; subst r; [reflexivity|].
  cbn [forLoop]. rewrite trace_bind. unfold storedEntries, registeredEntries in *.
  rewrite !omap_app. destruct (isSvg file) eqn:Hsvg.
  - rewrite (drop_body_accepts_exactly iconPack file successful h Hsvg).
    cbn [trace after fst snd omap]. now rewrite IH.
  - rewrite (drop_body_rejects iconPack file successful h Hsvg).
    cbn [trace after fst snd omap]. now rewrite IH.
Qed.

Lemma picker_loop_entries (iconPack : string) (files : list File.t) :
  forall (h : Host World),
    let r := forLoop files (onchange_body iconPack) tt h in
    storedEntries (trace r) = registeredEntries (trace r).
Proof.
  induction files as [|file rest IH]; intros h r; subst r; [reflexivity|].
  cbn [forLoop]. rewrite trace_bind. unfold storedEntries, registeredEntries in *.
  rewrite !omap_app.
  destruct (onchange_body_run iconPack file h) as (content & h' & -> & _).
  cbn [trace after fst snd omap]. now rewrite IH.
Qed.

Lemma drop_loop_host (iconPack : string) (files : list File.t) :
  forall (successful : bool) (h : Host World),
    let r := forLoop files (drop_body iconPack) successful h in
    match last (List.filter isSvg files) with
    | None => after r = h
    | Some file =>
        description (after r)
        = dropDescription (ext_iconsLength iconPack (world (after r))) file
    end.
Proof.
  induction files as [|file rest IH]; intros successful h r; subst r; [reflexivity|].
  cbn [forLoop List.filter]. rewrite after_bind. destruct (isSvg file) eqn:Hsvg.
  - rewrite (drop_body_accepts_exactly iconPack file successful h Hsvg).
    cbn [after fst snd]. rewrite last_cons.
    match goal with |- context [forLoop rest _ true ?h1] =>
      specialize (IH true h1); cbv zeta in IH end.
    destruct (last (List.filter isSvg rest)) as [file'|]; [exact IH|].
    rewrite IH. reflexivity.
  - rewrite (drop_body_rejects iconPack file successful h Hsvg).
    cbn [after fst snd]. apply IH.
Qed.

Lemma drop_loop_rejects_all (iconPack : string) (files : list File.t) :
  forall (successful : bool) (h : Host World),
    List.filter isSvg files = [] ->
    forLoop files (drop_body iconPack) successful h
    = (successful, h, (fun file => NewNotice (rejection file)) <$> files).
Proof.
  induction files as [|file rest IH]; intros successful h Hnone; [reflexivity|].
  cbn [List.filter] in Hnone. destruct (isSvg file) eqn:Hsvg; [discriminate|].
  cbn [forLoop]. unfold bind.
  rewrite (drop_body_rejects iconPack file successful h Hsvg), (IH successful h Hnone).
  reflexivity.
Qed.

Lemma refresh_body_run (iconPack fileName : string) (h : Host World) :
  exists svg h',
    refresh_body iconPack fileName tt h
    = (tt, h', [VaultRead fileName; AddIconToIconPack iconPack (lastSegment fileName) svg])
    /\ description h' = description h
    /\ textComponent h' = textComponent h.
Proof.
  unfold refresh_body, bind, vaultRead, addIconToIconPack, onWorld.
  destruct (ext_vaultRead fileName (world h)) as [svg w1]. cbn.
  eexists svg, _. repeat split; reflexivity.
Qed.

Lemma refresh_loop (iconPack : string) (files : list string) :
  forall (h : Host World),
    let r := forLoop files (refresh_body iconPack) tt h in
    pathsRead (trace r) = files
    /\ registeredIcons (trace r) = (fun path => (iconPack, lastSegment path)) <$> files
    /\ createdFiles (trace r) = []
    /\ notices (trace r) = []
    /\ descriptions (trace r) = []
    /\ description (after r) = description h
    /\ textComponent (after r) = textComponent h.
Proof.
  induction files as [|path rest IH]; intros h r; subst r.
  - cbn. repeat split; reflexivity.
  - cbn [forLoop]. rewrite trace_bind, after_bind.
    unfold pathsRead, registeredIcons, createdFiles, notices, descriptions in *.
    rewrite !omap_app.
    destruct (refresh_body_run iconPack path h) as (svg & h' & -> & Hd & Ht).
    cbn [trace after fst snd omap fmap list_fmap].
    destruct (IH h') as (Hp & Hr & Hc & Hn & Hds & Hd' & Ht').
    rewrite Hp, Hr, Hc, Hn, Hds, Hd', Ht', Hd, Ht. repeat split; reflexivity.
Qed.

(** X4: the creation handler asks for at most one directory, only under
    the normalized form of the typed name, which is then never the empty
    name and, for well-formed text, holds no white space and is its own
    normal form; it asks for a redraw exactly when it asks for the
    directory; it never stores or registers a file; when nothing is
    created the input keeps its text. *)
Theorem addIconPack_only_creates_normalized (h : Host World) :
  let r := addIconPack_onClick h in
  (createdDirectories (trace r) = []
   \/ createdDirectories (trace r) = [normalizeIconPackName (textComponent h)])
  /\ (forall name, name ∈ createdDirectories (trace r) -> name <> "")
  /\ (wellFormed (textComponent h) = true ->
      forall name, name ∈ createdDirectories (trace r) ->
                   hasWhiteSpace name = false /\ normalizeIconPackName name = name)
  /\ length (redraws (trace r)) = length (createdDirectories (trace r))
  /\ storedEntries (trace r) = []
  /\ registeredEntries (trace r) = []
  /\ (createdDirectories (trace r) = [] -> textComponent (after r) = textComponent h).
Proof.
  intros r. subst r. unfold addIconPack_onClick, bind, getValue.
  destruct (String.length (textComponent h) =? 0)%nat eqn:E.
  - cbn. split; [now left|].
    split; [intros name Hin; now apply elem_of_nil in Hin|].
    split; [intros _ name Hin; now apply elem_of_nil in Hin|]. repeat split; auto.
  - assert (Hne : textComponent h <> "").
    { intros Heq. apply length_zero_empty in Heq. congruence. }
    unfold doesIconPackExist, createCustomIconPackDirectory, onWorld.
    destruct (ext_doesIconPackExist _ (world h)) as [[] w1]; cbn.
    + split; [now left|].
      split; [intros name Hin; now apply elem_of_nil in Hin|].
      split; [intros _ name Hin; now apply elem_of_nil in Hin|]. repeat split; auto.
    + split; [now right|]. split; [|split; [|repeat split; auto; discriminate]].
      * intros name Hin. apply list_elem_of_singleton in Hin. subst name.
        now apply normalize_nonempty.
      * intros Hwf name Hin. apply list_elem_of_singleton in Hin. subst name.
        destruct (normalize_settles _ Hwf) as (_ & Hw & _ & Hi). now split.
Qed.

(** X5: once a pack has been created the input is empty, so a second
    click right away is ignored: no call, no notice, nothing changed. *)
Theorem addIconPack_second_click_ignored (h : Host World) :
  textComponent h <> "" ->
  fst (ext_doesIconPackExist (normalizeIconPackName (textComponent h)) (world h)) = false ->
  let h' := after (addIconPack_onClick h) in
  addIconPack_onClick h' = (tt, h', []).
Proof.
  intros Hne Hfound h'. subst h'.
  assert (Hempty : textComponent (after (addIconPack_onClick h)) = "").
  { unfold addIconPack_onClick, bind, getValue.
    destruct (String.length (textComponent h) =? 0)%nat eqn:E.
    { apply length_zero_empty in E. contradiction. }
    unfold doesIconPackExist, createCustomIconPackDirectory, onWorld.
    destruct (ext_doesIconPackExist _ (world h)) as [found w1].
    cbn [fst] in Hfound. subst found. reflexivity. }
  set (h' := after (addIconPack_onClick h)) in *.
  unfold addIconPack_onClick at 1. unfold bind, getValue. rewrite Hempty. reflexivity.
Qed.

(** X6: in the file picker as in the drop listener, what is stored with
    [createFile] is what is registered with [addIconToIconPack]: the
    same packs, names and contents, in the same order. *)
Theorem stored_is_registered (iconPack : string) (files : list File.t) (h : Host World) :
  storedEntries (trace (fileSelector_onchange iconPack files h))
    = registeredEntries (trace (fileSelector_onchange iconPack files h))
  /\ storedEntries (trace (onDrop iconPack files h))
     = registeredEntries (trace (onDrop iconPack files h)).
Proof.
  split.
  - unfold fileSelector_onchange. rewrite trace_bind.
    unfold storedEntries, registeredEntries. rewrite !omap_app.
    pose proof (picker_loop_entries iconPack files h) as E.
    unfold storedEntries, registeredEntries in E. cbv zeta in E. rewrite E.
    reflexivity.
  - unfold onDrop. rewrite trace_bind.
    unfold storedEntries, registeredEntries. rewrite !omap_app.
    pose proof (drop_loop_entries iconPack files false h) as E.
    unfold storedEntries, registeredEntries in E. cbv zeta in E. rewrite E.
    f_equal. destruct (fst (fst _)); reflexivity.
Qed.

(** X7: for any dropped file list, the files read, stored and registered
    are the SVG files in drop order; the notices are one rejection per
    other file, in drop order, followed by the success notice exactly
    when some file was an SVG; the text input is left alone. *)
Theorem drop_any_files (iconPack : string) (files : list File.t) (h : Host World) :
  let r := onDrop iconPack files h in
  filesRead (trace r) = List.filter isSvg files
  /\ createdFiles (trace r) = entryOf iconPack <$> List.filter isSvg files
  /\ registeredIcons (trace r) = entryOf iconPack <$> List.filter isSvg files
  /\ notices (trace r) =
       ((rejection <$> List.filter (fun f => negb (isSvg f)) files)
        ++ (if List.existsb isSvg files then ["Icons successfully added."] else []))%list
  /\ textComponent (after r) = textComponent h.
Proof.
  intros r. subst r.
  destruct (onDrop_trace iconPack files h) as (Hc & Hr & Hf & Hn).
  repeat split; try assumption.
  unfold onDrop. rewrite after_bind.
  destruct (drop_loop iconPack files false h) as (_ & _ & _ & _ & _ & Ht).
  rewrite <- Ht. destruct (fst (fst _)); reflexivity.
Qed.

(** X8: when no dropped file is an SVG, the drop changes nothing: the
    world, the input and the row description stay as they are, nothing
    is read, and the only calls are the rejection notices, one per file,
    in drop order, with no success notice. *)
Theorem drop_all_rejected (iconPack : string) (files : list File.t) (h : Host World) :
  List.filter isSvg files = [] ->
  onDrop iconPack files h
  = (tt, h, (fun file => NewNotice (rejection file)) <$> files).
Proof.
  intros Hnone. unfold onDrop, bind.
  rewrite (drop_loop_rejects_all iconPack files false h Hnone).
  cbn. now rewrite app_nil_r.
Qed.

(** X9: after a drop with at least one SVG, the row description names
    the last SVG of the list and shows the pack's [icons.length] as it is
    when the handler ends. *)
Theorem drop_description_names_last_svg
    (iconPack : string) (files : list File.t) (file : File.t) (h : Host World) :
  last (List.filter isSvg files) = Some file ->
  let r := onDrop iconPack files h in
  description (after r)
  = dropDescription (ext_iconsLength iconPack (world (after r))) file.
Proof.
  intros Hlast r. subst r. unfold onDrop. rewrite after_bind.
  pose proof (drop_loop_host iconPack files false h) as Hh.
  cbv zeta in Hh. rewrite Hlast in Hh.
  destruct (fst (fst _)); exact Hh.
Qed.

(** X10: for any directory listing, a refresh reads every listed path
    from the vault, in listing order, registers each under the last
    segment of its path, stores nothing, shows the one "refreshed"
    notice and leaves the number of listed files as the description. *)
Theorem refresh_any_listing (iconPack : string) (h : Host World) :
  let files := fst (ext_getFilesInIconPackDirectory iconPack (world h)) in
  let r := refresh_onClick iconPack h in
  pathsRead (trace r) = files
  /\ registeredIcons (trace r) = (fun path => (iconPack, lastSegment path)) <$> files
  /\ createdFiles (trace r) = []
  /\ notices (trace r) = ["Icon pack " ++ iconPack ++ " refreshed."]
  /\ descriptions (trace r)
     = ["Loading icons..."; JsString.ofNat (length files) ++ " icons"]
  /\ description (after r) = JsString.ofNat (length files) ++ " icons"
  /\ textComponent (after r) = textComponent h.
Proof.
  intros files r. subst files r.
  unfold refresh_onClick, bind, setDesc, getFilesInIconPackDirectory, onWorld, newNotice.
  cbn [world].
  destruct (ext_getFilesInIconPackDirectory iconPack (world h)) as [files w1].
  cbn [fst].
  match goal with |- context [forLoop files _ tt ?h1] =>
    pose proof (refresh_loop iconPack files h1) as Hl; cbv zeta in Hl;
    destruct (forLoop files (refresh_body iconPack) tt h1) as [[u h2] t2]
  end.
  cbn [trace after fst snd world textComponent description] in *.
  destruct Hl as (Hp & Hr & Hc & Hn & Hds & Hd & Ht).
  unfold pathsRead, registeredIcons, createdFiles, notices, descriptions in *.
  rewrite !omap_app, Hp, Hr, Hc, Hn, Hds.
  cbn. rewrite ?app_nil_r. repeat split; try reflexivity. exact Ht.
Qed.

End MoreHandlerFacts.

Lemma addIconPack_second_click_ignored_witness :
  addIconPack_onClick (after (addIconPack_onClick (InMemory.start "My Pack")))
  = (tt, after (addIconPack_onClick (InMemory.start "My Pack")), []).
Proof.
  apply (addIconPack_second_click_ignored (InMemory.start "My Pack")).
  - discriminate.
  - reflexivity.
Defined.

Lemma addIconPack_only_creates_normalized_witness :
  hasWhiteSpace "my-pack" = false /\ normalizeIconPackName "my-pack" = "my-pack".
Proof.
  apply (proj1 (proj2 (proj2 (addIconPack_only_creates_normalized (InMemory.start "My Pack"))))).
  - vm_compute. reflexivity.
  - apply list_elem_of_singleton. vm_compute. reflexivity.
Defined.

Lemma drop_all_rejected_witness :
  onDrop "foo" [notes; notes] (InMemory.start "")
  = (tt, InMemory.start "", [NewNotice (rejection notes); NewNotice (rejection notes)]).
Proof. apply (drop_all_rejected "foo" [notes; notes] (InMemory.start "")). reflexivity. Defined.

Lemma drop_description_names_last_svg_witness :
  description (after (onDrop "foo" [aSvg; bSvg; notes] (InMemory.start "")))
  = "Total icons: 2 (added: b.svg)".
Proof.
  rewrite (drop_description_names_last_svg "foo" [aSvg; bSvg; notes] bSvg (InMemory.start ""))
    by reflexivity.
  reflexivity.
Defined.

(** * Further facts: the drag highlight *)

Section MoreDragFacts.
Import Dom Drag.

Implicit Types (doc : gmap nat Element) (el parent : nat) (node : Node).

Lemma hasClass_appendChild doc parent el node token :
  hasClass (appendChild parent node doc) el token <-> hasClass doc el token.
Proof.
  unfold hasClass, appendChild. rewrite element_insert. case_decide as Hd.
  - subst. cbn. now rewrite element_without.
  - now rewrite element_without.
Qed.

Lemma hasClass_classList_add_iff doc parent el token :
  hasClass (classList_add parent token doc) el token
  <-> hasClass doc el token \/ el = parent.
Proof.
  unfold hasClass, classList_add.
  destruct (decide (token ∈ classList (element doc parent))) as [Hin|Hin].
  - split; [tauto|]. intros [Hc| ->]; assumption.
  - rewrite element_insert. case_decide as Hd.
    + subst. cbn. rewrite elem_of_app, list_elem_of_singleton. tauto.
    + split; [tauto|]. intros [Hc|Heq]; [assumption|congruence].
Qed.

Lemma hasClass_after_removeChild doc parent el node token :
  hasClass (<[parent := without node (element doc parent)]> doc) el token
  <-> hasClass doc el token.
Proof.
  unfold hasClass. rewrite element_insert. case_decide; subst; reflexivity.
Qed.

Lemma hasClass_classList_remove_iff doc parent el token :
  hasClass (classList_remove parent token doc) el token
  <-> hasClass doc el token /\ el <> parent.
Proof.
  unfold hasClass, classList_remove. rewrite element_insert. case_decide as Hd.
  - subst. cbn. rewrite list_elem_of_filter. tauto.
  - split; [intros Hc; split; [assumption|congruence] | tauto].
Qed.

Lemma marks_highlight (el : nat) (s : State) :
  marksOnlyOwner s -> marksOnlyOwner (highlight el s).
Proof.
  intros Hm el'. unfold highlight. cbn.
  destruct (dragTargetElement s) as [owner|] eqn:Eo; cbn.
  - rewrite Eo. intros Hc. apply Hm in Hc. congruence.
  - rewrite hasClass_classList_add_iff, hasClass_appendChild.
    intros [Hc| ->]; [|reflexivity]. apply Hm in Hc. congruence.
Qed.

(** A release of the owner leaves the class on no element. *)
Lemma marks_release (owner : nat) (s s' : State) :
  marksOnlyOwner s -> dragTargetElement s = Some owner ->
  release owner s = Normal s' ->
  forall el, ~ hasClass (document s') el "iconize-dragover".
Proof.
  intros Hm Eo. unfold release, removeChild. case_decide; [|discriminate].
  intros [= <-] el. cbn.
  rewrite hasClass_classList_remove_iff, hasClass_after_removeChild.
  intros [Hc Hne]. apply Hm in Hc. congruence.
Qed.

Lemma marks_step (e : Event) (s s' : State) :
  Inv s -> marksOnlyOwner s -> step e s = Normal s' -> marksOnlyOwner s'.
Proof.
  intros HI Hm Hstep.
  assert (Hun : forall row, unhighlight row row s = Normal s' -> marksOnlyOwner s').
  { intros row. unfold unhighlight.
    destruct (dragTargetElement s) as [owner|] eqn:Eo.
    - case_decide.
      + destruct (release owner s) as [s1|err] eqn:Er; [|discriminate].
        intros [= <-] el Hc. cbn in Hc.
        now apply (marks_release owner s s1 Hm Eo Er) in Hc.
      + intros [= <-] el Hc. cbn in *. apply Hm in Hc. congruence.
    - intros [= <-] el Hc. cbn in *. apply Hm in Hc. congruence. }
  destruct e as [[] row|ms|]; cbn [step dispatch] in Hstep.
  - injection Hstep as <-. now apply marks_highlight.
  - injection Hstep as <-. now apply marks_highlight.
  - now apply (Hun row).
  - now apply (Hun row).
  - injection Hstep as <-. exact Hm.
  - unfold runTimers in Hstep.
    destruct (closeTimer s) as [[due el]|] eqn:Et; [|injection Hstep as <-; exact Hm].
    destruct (due <=? clock s)%nat; [|injection Hstep as <-; exact Hm].
    unfold closeTimerCallback in Hstep. cbn [dragTargetElement] in Hstep.
    destruct (dragTargetElement s) as [owner|] eqn:Eo.
    + destruct HI as (_ & _ & Htim).
      assert (owner = el) as -> by (destruct (Htim due el Et); congruence).
      intros el' Hc.
      assert (Hm0 : marksOnlyOwner (mkState (document s) None (Some el) (clock s))).
      { intros x Hx. cbn in *. rewrite <- Eo. now apply Hm. }
      now apply (marks_release el _ s' Hm0 eq_refl Hstep) in Hc.
    + injection Hstep as <-. intros el' Hc. cbn in *. apply Hm in Hc. congruence.
Qed.

Lemma marks_run (es : list Event) :
  forall s s', Inv s -> marksOnlyOwner s -> run es s = Normal s' -> marksOnlyOwner s'.
Proof.
  induction es as [|e es IH]; intros s s' HI Hm Hrun; cbn [run] in Hrun.
  - now injection Hrun as <-.
  - destruct (Inv_step e s HI) as (s1 & Hstep & HI1). rewrite Hstep in Hrun.
    apply (IH s1 s' HI1); [|assumption]. now apply (marks_step e s s1).
Qed.

(** With no owner, time-only events leave document and owner alone:
    a timer that comes due finds nothing to release. *)
Lemma run_idle_unowned (es : list Event) :
  forall s,
    dragTargetElement s = None ->
    Forall (fun e => isIdle e = true) es ->
    exists s', run es s = Normal s'
               /\ document s' = document s /\ dragTargetElement s' = None.
Proof.
  induction es as [|e es IH]; intros s Eo Hidle; [now exists s|].
  apply Forall_cons in Hidle as [He Hes].
  destruct e as [ev row|ms|]; [discriminate| |]; cbn [run step].
  - destruct (IH (later ms s) Eo Hes) as (s' & -> & Hd & Ho). now exists s'.
  - assert (Hrt : exists s1, runTimers s = Normal s1
                             /\ document s1 = document s /\ dragTargetElement s1 = None).
    { unfold runTimers. destruct (closeTimer s) as [[due el]|]; [|now exists s].
      destruct (due <=? clock s)%nat; [|now exists s].
      unfold closeTimerCallback. cbn [dragTargetElement]. rewrite Eo.
      eexists. split; [reflexivity|]. now split. }
    destruct Hrt as (s1 & -> & Hd1 & Ho1).
    destruct (IH s1 Ho1 Hes) as (s' & -> & Hd & Ho).
    exists s'. split; [reflexivity|]. split; [congruence|assumption].
Qed.

Lemma unhighlight_own (row : nat) (s : State) :
  dragTargetElement s = Some row ->
  unhighlight row row s = Normal (setTimeout row 100 (clearTimeout s)).
Proof. intros Eo. unfold unhighlight. rewrite Eo. case_decide; [congruence|reflexivity]. Qed.

Lemma dispatch_leaves (ev : DragEvent) (row : nat) (s : State) :
  leaves ev = true -> dispatch ev row s = unhighlight row row s.
Proof. destruct ev; try discriminate; reflexivity. Qed.

Lemma Inv_unowned_detached (s : State) :
  Inv s -> dragTargetElement s = None -> detached (document s) dragOverElement.
Proof. intros (Hown & _) Eo el Hh. apply Hown in Hh. congruence. Qed.

(** X12: a [highlight] that follows a [highlight] changes nothing,
    whichever the two elements are: the first call wins. *)
Theorem highlight_absorbs_highlight (a b : nat) (s : State) :
  highlight b (highlight a s) = highlight a s.
Proof.
  unfold highlight. cbn. destruct (dragTargetElement s) as [owner|] eqn:Eo; cbn.
  - now rewrite Eo.
  - reflexivity.
Qed.

(** X13: on a panel built over a document where the overlay is attached
    nowhere and no row carries the highlight class, after any events
    the rows that hold the overlay, the rows that carry the class and
    the owner are the same: one row or none. *)
Theorem highlight_marks_exactly_owner (doc : gmap nat Element) (es : list Event) :
  detached doc dragOverElement ->
  unmarked doc ->
  exists s,
    run es (constructor doc) = Normal s
    /\ forall el,
         (holds (document s) el dragOverElement <-> dragTargetElement s = Some el)
         /\ (hasClass (document s) el "iconize-dragover" <-> dragTargetElement s = Some el).
Proof.
  intros Hdet Hun.
  pose proof (Inv_constructor doc Hdet) as HI0.
  destruct (Inv_run es (constructor doc) HI0) as (s & Hrun & HI).
  assert (Hm : marksOnlyOwner s).
  { apply (marks_run es (constructor doc) s HI0); [|exact Hrun].
    intros el Hc. now apply Hun in Hc. }
  exists s. split; [exact Hrun|]. intros el. destruct HI as (Hown & Hcls & _).
  split; [apply Hown|]. split; [apply Hm|apply Hcls].
Qed.

(** X14: a [dragleave] or [drop] on the owner, followed by 100 ms or
    more without events, ends the highlight: when the timer runs the
    overlay is attached nowhere, the owner has lost the class, nobody
    owns the overlay and no timer is pending. *)
Theorem release_completes (s : State) (row ms : nat) (ev : DragEvent) :
  Inv s -> dragTargetElement s = Some row -> leaves ev = true -> 100 <= ms ->
  exists s',
    run [Deliver ev row; Elapse ms; RunTimers] s = Normal s'
    /\ dragTargetElement s' = None
    /\ closeTimer s' = None
    /\ detached (document s') dragOverElement
    /\ ~ hasClass (document s') row "iconize-dragover".
Proof.
  intros HI Eo Hev Hms. cbn [run step].
  rewrite (dispatch_leaves ev row s Hev), (unhighlight_own row s Eo).
  unfold runTimers. cbn.
  destruct (Nat.leb_spec (clock s + 100) (clock s + ms)) as [_|Hlt]; [|lia].
  unfold closeTimerCallback. cbn. rewrite Eo.
  assert (HI0 : Inv (mkState (document s) None (Some row) (clock s + ms))).
  { destruct HI as (Hown & Hcls & _). rewrite <- Eo.
    repeat split; cbn; try apply Hown; try apply Hcls. discriminate. }
  destruct (release_owner _ row HI0 eq_refl) as (s' & Hr & HI' & Ho & Ht & _ & _ & Hc).
  rewrite Hr. exists s'. split; [reflexivity|]. split; [exact Ho|].
  split; [exact Ht|]. split; [|exact Hc]. now apply Inv_unowned_detached.
Qed.

(** X15: a [dragleave] or [drop] delivered to a row other than the
    owner releases the owner at once (overlay detached, class removed,
    no owner) and arms the timer for that row; when the timer later
    runs it finds no owner and changes nothing. *)
Theorem leave_elsewhere_releases_owner
    (s : State) (rowA rowB : nat) (ev : DragEvent) (idle : list Event) :
  Inv s -> dragTargetElement s = Some rowA -> rowA <> rowB -> leaves ev = true ->
  Forall (fun e => isIdle e = true) idle ->
  exists s1 s2,
    dispatch ev rowB s = Normal s1
    /\ dragTargetElement s1 = None
    /\ detached (document s1) dragOverElement
    /\ ~ hasClass (document s1) rowA "iconize-dragover"
    /\ closeTimer s1 = Some (clock s + 100, rowB)
    /\ run idle s1 = Normal s2
    /\ document s2 = document s1
    /\ dragTargetElement s2 = None.
Proof.
  intros HI Eo Hne Hev Hidle. rewrite (dispatch_leaves ev rowB s Hev).
  unfold unhighlight. rewrite Eo. case_decide; [|tauto].
  destruct (release_owner s rowA HI Eo) as (s1 & -> & HI1 & Ho1 & _ & Hclock & _ & Hc1).
  set (s1' := setTimeout rowB 100 (clearTimeout s1)).
  destruct (run_idle_unowned idle s1' Ho1 Hidle) as (s2 & Hrun & Hd & Ho2).
  exists s1', s2. split; [reflexivity|]. split; [exact Ho1|].
  split; [exact (Inv_unowned_detached s1 HI1 Ho1)|]. split; [exact Hc1|].
  split; [cbn; now rewrite Hclock|]. auto.
Qed.

(** X16: when the pointer goes from the owner [rowA] straight to
    [rowB] ([dragenter] on B, [dragleave] on A, [dragover] on B), the
    highlight stays on [rowA]: the [dragover] clears the release armed
    by the [dragleave], and no passing of time ends it. *)
Theorem highlight_stays_on_previous_row
    (s : State) (rowA rowB : nat) (idle : list Event) :
  dragTargetElement s = Some rowA ->
  Forall (fun e => isIdle e = true) idle ->
  exists s',
    run ([Deliver dragenter rowB; Deliver dragleave rowA; Deliver dragover rowB] ++ idle) s
      = Normal s'
    /\ document s' = document s
    /\ dragTargetElement s' = Some rowA
    /\ closeTimer s' = None.
Proof.
  intros Eo Hidle. cbn [app run step dispatch].
  rewrite (highlight_owned s rowA rowB Eo).
  rewrite (unhighlight_own rowA (clearTimeout s) Eo).
  rewrite (highlight_owned (setTimeout rowA 100 (clearTimeout (clearTimeout s)))
             rowA rowB Eo).
  rewrite run_idle; [|assumption|right; cbn; discriminate].
  eexists. split; [reflexivity|]. now cbn.
Qed.

(** X17: the highlight moves from the owner [rowA] to another row
    [rowB] through a [dragleave] (or [drop]) on [rowB] followed by a
    [dragenter] or [dragover] on [rowB]: afterwards [rowB] holds the
    overlay, carries the class and is the owner, and [rowA] has neither
    overlay nor class. *)
Theorem highlight_moves_after_leave
    (s : State) (rowA rowB : nat) (ev : DragEvent) :
  Inv s -> dragTargetElement s = Some rowA -> rowA <> rowB -> leaves ev = true ->
  exists s',
    run [Deliver ev rowB; Deliver dragover rowB] s = Normal s'
    /\ highlighted s' rowB
    /\ ~ holds (document s') rowA dragOverElement
    /\ ~ hasClass (document s') rowA "iconize-dragover"
    /\ closeTimer s' = None.
Proof.
  intros HI Eo Hne Hev. cbn [run step]. rewrite (dispatch_leaves ev rowB s Hev).
  unfold unhighlight. rewrite Eo. case_decide; [|tauto].
  destruct (release_owner s rowA HI Eo) as (s1 & -> & HI1 & Ho1 & _ & _ & _ & Hc1).
  cbn [dispatch].
  set (s1' := setTimeout rowB 100 (clearTimeout s1)).
  assert (HI1' : Inv s1').
  { destruct HI1 as (Hown & Hcls & _). repeat split; cbn; try apply Hown; try apply Hcls.
    intros due el _. now left. }
  pose proof (Inv_highlight rowB s1' HI1') as (Hown & Hcls & _).
  assert (Eo' : dragTargetElement (highlight rowB s1') = Some rowB).
  { unfold highlight. cbn. now rewrite Ho1. }
  exists (highlight rowB s1'). split; [reflexivity|].
  split; [|split; [|split]].
  - split; [now apply Hown|]. split; [now apply Hcls|exact Eo'].
  - intros Hh. apply Hown in Hh. congruence.
  - unfold highlight. cbn. rewrite Ho1. cbn.
    rewrite hasClass_classList_add_iff, hasClass_appendChild. tauto.
  - unfold highlight. cbn. now rewrite Ho1.
Qed.

(** X18: [unhighlight] is safe only with [target] and [el] the same
    element, which is how [display] calls it: called on the owner as
    [target] with another element as [el], it arms a timer whose
    callback calls [removeChild] on an element that does not hold the
    overlay, and that call throws. *)
Theorem unhighlight_mismatch_throws (s : State) (target el : nat) :
  Inv s -> dragTargetElement s = Some target -> target <> el ->
  exists s1,
    unhighlight target el s = Normal s1
    /\ run [Elapse 100; RunTimers] s1 = Throw NotFoundError.
Proof.
  intros HI Eo Hne. unfold unhighlight. rewrite Eo.
  case_decide; [congruence|]. eexists. split; [reflexivity|].
  cbn [run step]. unfold runTimers. cbn.
  destruct (Nat.leb_spec (clock s + 100) (clock s + 100)) as [_|Hlt]; [|lia].
  unfold closeTimerCallback. cbn. rewrite Eo.
  unfold release, removeChild. cbn [document].
  case_decide as Hin; [|reflexivity].
  destruct HI as (Hown & _). apply Hown in Hin. congruence.
Qed.

(** X19: every [dragleave] on the owner restarts the 100 ms: after a
    second [dragleave], [ms] later, the release is due 100 ms after the
    second one, and nothing has been released meanwhile. *)
Theorem dragleave_restarts_timer (s : State) (row ms : nat) :
  dragTargetElement s = Some row ->
  exists s',
    run [Deliver dragleave row; Elapse ms; Deliver dragleave row] s = Normal s'
    /\ closeTimer s' = Some (clock s + ms + 100, row)
    /\ document s' = document s
    /\ dragTargetElement s' = Some row.
Proof.
  intros Eo. cbn [run step dispatch].
  rewrite (unhighlight_own row s Eo).
  rewrite (unhighlight_own row (later ms (setTimeout row 100 (clearTimeout s))) Eo).
  eexists. split; [reflexivity|]. now cbn.
Qed.

End MoreDragFacts.

Lemma highlight_marks_exactly_owner_witness :
  exists s,
    Drag.run [Drag.Deliver Drag.dragenter 1; Drag.Deliver Drag.drop 1;
              Drag.Elapse 100; Drag.RunTimers] (Drag.constructor ∅) = Dom.Normal s
    /\ forall el,
         (Dom.holds (Drag.document s) el Drag.dragOverElement
          <-> Drag.dragTargetElement s = Some el)
         /\ (Dom.hasClass (Drag.document s) el "iconize-dragover"
             <-> Drag.dragTargetElement s = Some el).
Proof.
  apply (highlight_marks_exactly_owner ∅).
  - apply detached_empty.
  - intros el Hc. unfold Dom.hasClass, Dom.element in Hc. rewrite lookup_empty in Hc.
    cbn in Hc. now apply elem_of_nil in Hc.
Defined.

Lemma Inv_onRow1 : Drag.Inv Drag.onRow1.
Proof. apply Inv_highlight, Inv_constructor, detached_empty. Qed.

Lemma release_completes_witness :
  exists s',
    Drag.run [Drag.Deliver Drag.drop 1; Drag.Elapse 150; Drag.RunTimers] Drag.onRow1
      = Dom.Normal s'
    /\ Drag.dragTargetElement s' = None
    /\ Drag.closeTimer s' = None
    /\ Dom.detached (Drag.document s') Drag.dragOverElement
    /\ ~ Dom.hasClass (Drag.document s') 1 "iconize-dragover".
Proof.
  apply (release_completes Drag.onRow1 1 150 Drag.drop).
  - exact Inv_onRow1.
  - reflexivity.
  - reflexivity.
  - lia.
Defined.

Lemma leave_elsewhere_releases_owner_witness :
  exists s1 s2,
    Drag.dispatch Drag.dragleave 2 Drag.onRow1 = Dom.Normal s1
    /\ Drag.dragTargetElement s1 = None
    /\ Dom.detached (Drag.document s1) Drag.dragOverElement
    /\ ~ Dom.hasClass (Drag.document s1) 1 "iconize-dragover"
    /\ Drag.closeTimer s1 = Some (Drag.clock Drag.onRow1 + 100, 2)
    /\ Drag.run [Drag.Elapse 100; Drag.RunTimers] s1 = Dom.Normal s2
    /\ Drag.document s2 = Drag.document s1
    /\ Drag.dragTargetElement s2 = None.
Proof.
  apply (leave_elsewhere_releases_owner Drag.onRow1 1 2 Drag.dragleave
           [Drag.Elapse 100; Drag.RunTimers]).
  - exact Inv_onRow1.
  - reflexivity.
  - lia.
  - reflexivity.
  - repeat constructor.
Defined.

Lemma highlight_stays_on_previous_row_witness :
  exists s',
    Drag.run ([Drag.Deliver Drag.dragenter 2; Drag.Deliver Drag.dragleave 1;
               Drag.Deliver Drag.dragover 2] ++ [Drag.Elapse 1000; Drag.RunTimers])
             Drag.onRow1 = Dom.Normal s'
    /\ Drag.document s' = Drag.document Drag.onRow1
    /\ Drag.dragTargetElement s' = Some 1
    /\ Drag.closeTimer s' = None.
Proof.
  apply (highlight_stays_on_previous_row Drag.onRow1 1 2 [Drag.Elapse 1000; Drag.RunTimers]).
  - reflexivity.
  - repeat constructor.
Defined.

Lemma highlight_moves_after_leave_witness :
  exists s',
    Drag.run [Drag.Deliver Drag.dragleave 2; Drag.Deliver Drag.dragover 2] Drag.onRow1
      = Dom.Normal s'
    /\ Drag.highlighted s' 2
    /\ ~ Dom.holds (Drag.document s') 1 Drag.dragOverElement
    /\ ~ Dom.hasClass (Drag.document s') 1 "iconize-dragover"
    /\ Drag.closeTimer s' = None.
Proof.
  apply (highlight_moves_after_leave Drag.onRow1 1 2 Drag.dragleave).
  - exact Inv_onRow1.
  - reflexivity.
  - lia.
  - reflexivity.
Defined.

Lemma unhighlight_mismatch_throws_witness :
  exists s1,
    Drag.unhighlight 1 2 Drag.onRow1 = Dom.Normal s1
    /\ Drag.run [Drag.Elapse 100; Drag.RunTimers] s1 = Dom.Throw Dom.NotFoundError.
Proof.
  apply (unhighlight_mismatch_throws Drag.onRow1 1 2).
  - exact Inv_onRow1.
  - reflexivity.
  - lia.
Defined.

Lemma dragleave_restarts_timer_witness :
  exists s',
    Drag.run [Drag.Deliver Drag.dragleave 1; Drag.Elapse 60; Drag.Deliver Drag.dragleave 1]
             Drag.onRow1 = Dom.Normal s'
    /\ Drag.closeTimer s' = Some (Drag.clock Drag.onRow1 + 60 + 100, 1)
    /\ Drag.document s' = Drag.document Drag.onRow1
    /\ Drag.dragTargetElement s' = Some 1.
Proof. apply (dragleave_restarts_timer Drag.onRow1 1 60). reflexivity. Defined.
